(** * Gmail archiver: a shallow embedding of [gmail_archiver.py]

    The archiver downloads every message of an IMAP account and writes it,
    with its attachments, into a date-bucketed directory tree.  This file
    embeds the script's functions ([sanitize_filename], [get_email_date],
    [get_email_folder_path], [get_unique_filename], [save_attachments],
    [archive_gmail]) together with a model of the Python library calls they
    make, and proves the properties of the design document about them.

    Conventions of the model:
    - a Python [str] and a Python [bytes] are both a [string], one [ascii]
      per character (respectively per byte);
    - a call that may raise returns an [outcome]; code that touches the file
      system, the IMAP session or the log is a function of the [World];
    - [while] loops are run on fuel; [OutOfFuel] is the outcome of a loop that
      was cut short, and the theorems show it is never produced. *)

From stdpp Require Import gmap strings list fin_maps pretty.
From Stdlib Require Import ZArith Ascii String.

Local Open Scope string_scope.
Local Open Scope Z_scope.

(** ** Python [str] operations used by the script and by [email.utils] *)

Module Py.

(** [s[:n]] *)
Fixpoint take (n : nat) (s : string) : string :=
  match n, s with
  | S n', String c s' => String c (take n' s')
  | _, _ => ""
  end.

(** [s[n:]] *)
Fixpoint drop (n : nat) (s : string) : string :=
  match n, s with
  | S n', String _ s' => drop n' s'
  | _, _ => s
  end.

(** [c in s] for a one-character [c] *)
Fixpoint contains (c : ascii) (s : string) : bool :=
  match s with
  | "" => false
  | String d s' => if Ascii.eqb c d then true else contains c s'
  end.

(** [s.startswith(p)] *)
Fixpoint startswith (p s : string) : bool :=
  match p, s with
  | "", _ => true
  | String a p', String b s' => Ascii.eqb a b && startswith p' s'
  | _, "" => false
  end.

(** [s.endswith(p)] *)
Definition endswith (p s : string) : bool :=
  startswith (String.rev p) (String.rev s).

(** [s.find(c)] for a one-character [c]; [None] stands for [-1] *)
Fixpoint find (c : ascii) (s : string) : option nat :=
  match s with
  | "" => None
  | String d s' => if Ascii.eqb c d then Some 0%nat else S <$> find c s'
  end.

(** [s.rfind(c)] for a one-character [c]; [None] stands for [-1] *)
Fixpoint rfind (c : ascii) (s : string) : option nat :=
  match s with
  | "" => None
  | String d s' =>
      match rfind c s' with
      | Some i => Some (S i)
      | None => if Ascii.eqb c d then Some 0%nat else None
      end
  end.

(** [s.split(sep)] for a non-empty [sep]: the pieces between the
    occurrences of [sep], found from left to right without overlap.
    [skip] counts the characters of a separator still to be passed over,
    [cur] is the current piece, reversed. *)
Fixpoint split_go (sep s : string) (skip : nat) (cur : string) : list string :=
  match s with
  | "" => [String.rev cur]
  | String c s' =>
      match skip with
      | S k => split_go sep s' k cur
      | O =>
          if startswith sep s
          then String.rev cur :: split_go sep s' (String.length sep - 1) ""
          else split_go sep s' 0 (String c cur)
      end
  end.

Definition split (sep s : string) : list string := split_go sep s 0 "".

(** [l[-1]] and [l[0]] of a list of pieces; [split] never returns the
    empty list, on which Python would raise *)
Definition last_piece (l : list string) : string := List.last l "".
Definition first_piece (l : list string) : string := List.hd "" l.

(** Whitespace in the sense of [str.split()] and [str.strip()], on the
    8-bit characters of the model *)
Definition is_space (c : ascii) : bool :=
  match c with
  | "009" | "010" | "011" | "012" | "013" | "028" | "029" | "030" | "031"
  | " " | "133" | "160" => true
  | _ => false
  end%char.

(** [s.split()]: the maximal runs of non-whitespace characters *)
Fixpoint split_ws_go (cur : option string) (s : string) : list string :=
  match s with
  | "" => option_list (String.rev <$> cur)
  | String c s' =>
      if is_space c
      then (option_list (String.rev <$> cur) ++ split_ws_go None s')%list
      else split_ws_go (Some (String c (default "" cur))) s'
  end.

Definition split_ws : string → list string := split_ws_go None.

(** [s.lstrip(chars)], [s.rstrip(chars)], [s.strip(chars)] for a
    predicate on characters *)
Fixpoint lstrip (p : ascii → bool) (s : string) : string :=
  match s with
  | String c s' => if p c then lstrip p s' else s
  | "" => ""
  end.

Definition rstrip (p : ascii → bool) (s : string) : string :=
  String.rev (lstrip p (String.rev s)).

Definition strip (p : ascii → bool) (s : string) : string :=
  rstrip p (lstrip p s).

Definition map_chars (f : ascii → ascii) : string → string :=
  fix go s := match s with "" => "" | String c s' => String (f c) (go s') end.

(** [s.lower()] and [s.upper()].  Only the ASCII letters are mapped: the
    callers compare the result with ASCII names, and no other 8-bit
    character is mapped to an ASCII one by Python. *)
Definition lower_char (c : ascii) : ascii :=
  let n := nat_of_ascii c in
  if (65 <=? n)%nat && (n <=? 90)%nat then ascii_of_nat (n + 32) else c.

Definition upper_char (c : ascii) : ascii :=
  let n := nat_of_ascii c in
  if (97 <=? n)%nat && (n <=? 122)%nat then ascii_of_nat (n - 32) else c.

Definition lower : string → string := map_chars lower_char.
Definition upper : string → string := map_chars upper_char.

(** [s in names] *)
Definition mem (s : string) (names : list string) : bool :=
  existsb (String.eqb s) names.

(** [names.index(s)] when [s in names] *)
Fixpoint index (s : string) (names : list string) : nat :=
  match names with
  | [] => 0
  | n :: names' => if String.eqb s n then 0 else S (index s names')
  end.

(** [c.isdigit()] on the 8-bit characters: the ASCII digits and the
    superscripts one, two and three *)
Definition isdigit (c : ascii) : bool :=
  match Ascii.is_nat c, c with
  | Some _, _ => true
  | None, ("178" | "179" | "185")%char => true
  | None, _ => false
  end.

(** [int(s)]: an optional sign, then decimal digits in groups separated by
    single underscores; [None] stands for [ValueError].  [acc] is the value
    read so far, [after_digit] tells whether the last character was a
    digit. *)
Fixpoint int_digits (s : string) (acc : Z) (after_digit : bool) : option Z :=
  match s with
  | "" => if after_digit then Some acc else None
  | String c s' =>
      match Ascii.is_nat c with
      | Some d => int_digits s' (10 * acc + Z.of_nat d) true
      | None =>
          if Ascii.eqb c "_"%char && after_digit then int_digits s' acc false
          else None
      end
  end.

Definition int (s : string) : option Z :=
  match strip is_space s with
  | String "-" s' => Z.opp <$> int_digits s' 0 false
  | String "+" s' => int_digits s' 0 false
  | s' => int_digits s' 0 false
  end.

(** [str(n)] zero-padded to [width] digits, as [strftime] prints the
    fields of a date *)
Definition zpad (width : nat) (n : Z) : string :=
  let s := pretty (Z.to_N n) in
  String.rev (take (Nat.max width (String.length s))
                   (String.rev s +:+ "00000000")).

(** [repr(b)] of a [bytes] value, as an f-string prints it *)
Definition hex_digit (n : nat) : ascii :=
  ascii_of_nat (if (n <? 10)%nat then 48 + n else 87 + n).

Definition repr_byte (quote : ascii) (c : ascii) : string :=
  let n := nat_of_ascii c in
  if Ascii.eqb c quote || Ascii.eqb c "\"%char then String "\" (String c "")
  else if Ascii.eqb c "009"%char then "\t"
  else if Ascii.eqb c "010"%char then "\n"
  else if Ascii.eqb c "013"%char then "\r"
  else if (n <? 32)%nat || (127 <=? n)%nat
       then String "\" (String "x" (String (hex_digit (n / 16))
                                           (String (hex_digit (n mod 16)) "")))
  else String c "".

Definition repr_bytes (b : string) : string :=
  let quote : ascii :=
    if contains "'"%char b && negb (contains "034"%char b)
    then "034"%char else "'"%char in
  let body := (fix go s := match s with
                           | "" => ""
                           | String c s' => repr_byte quote c +:+ go s'
                           end) b in
  String "b" (String quote body) +:+ String quote "".

End Py.

(** ** Name sanitizer *)

(** The character class of the pattern given to [re.sub]: backslash, slash,
    star, question mark, colon, double quote, the angle brackets and the
    vertical bar. *)
Definition reserved_chars : list ascii :=
  ["\"; "/"; "*"; "?"; ":"; "034"; "<"; ">"; "|"]%char.

Definition is_reserved (c : ascii) : bool :=
  existsb (Ascii.eqb c) reserved_chars.

(** [re.sub(cls, repl, s)] for a pattern that is one character class: every
    character of the class is a match, replaced by [repl]. *)
Fixpoint re_sub_class (cls : ascii → bool) (repl : string) (s : string) : string :=
  match s with
  | "" => ""
  | String c s' =>
      (if cls c then repl else String c "") +:+ re_sub_class cls repl s'
  end.

Definition sanitize_filename (filename : string) : string :=
  re_sub_class is_reserved "_" filename.

(** ** Exceptions and outcomes *)

(** A raised exception: its class and the text [str(e)] that the script
    writes to the log.  The texts of the library's own exceptions are
    indicative. *)
Inductive exn : Type :=
  | ValueError (msg : string)
  | TypeError (msg : string)
  | IndexError (msg : string)
  | AttributeError (msg : string)
  | OSError (msg : string)
  | UnicodeDecodeError (msg : string)
  | IMAP4_error (msg : string).

Definition str_exn (e : exn) : string :=
  match e with
  | ValueError m | TypeError m | IndexError m | AttributeError m
  | OSError m | UnicodeDecodeError m | IMAP4_error m => m
  end.

Inductive outcome (A : Type) : Type :=
  | Ok (a : A)
  | Raise (e : exn)
  | OutOfFuel.
Arguments Ok {A} a.
Arguments Raise {A} e.
Arguments OutOfFuel {A}.

(** A library call that returns or raises *)
Definition returned {A} (r : exn + A) : outcome A :=
  match r with
  | inl e => Raise e
  | inr a => Ok a
  end.

Definition outcome_bind {A B} (r : outcome A) (k : A → outcome B) : outcome B :=
  match r with
  | Ok a => k a
  | Raise e => Raise e
  | OutOfFuel => OutOfFuel
  end.

(** ** The calendar: [calendar.timegm], [datetime.fromtimestamp], [strftime] *)

Module Calendar.

Record datetime := {
  year : Z; month : Z; day : Z; hour : Z; minute : Z; second : Z
}.

Definition is_leap (y : Z) : bool :=
  (y mod 4 =? 0) && (negb (y mod 100 =? 0) || (y mod 400 =? 0)).

Definition days_before_year (y : Z) : Z :=
  let y := y - 1 in y * 365 + y / 4 - y / 100 + y / 400.

(** Days of the year before the first of the month, common year *)
Definition DAYS_BEFORE_MONTH : list Z :=
  [0; 0; 31; 59; 90; 120; 151; 181; 212; 243; 273; 304; 334].
Definition DAYS_IN_MONTH : list Z :=
  [0; 31; 28; 31; 30; 31; 30; 31; 31; 30; 31; 30; 31].

Definition days_before_month (y m : Z) : Z :=
  nth (Z.to_nat m) DAYS_BEFORE_MONTH 0 +
  (if (2 <? m) && is_leap y then 1 else 0).

Definition ymd2ord (y m d : Z) : Z :=
  days_before_year y + days_before_month y m + d.

(** [date(1970, 1, 1).toordinal()] and [date.max.toordinal()] *)
Definition EPOCH_ORD : Z := 719163.
Definition MAX_ORD : Z := 3652059.
Definition MINYEAR : Z := 1.
Definition MAXYEAR : Z := 9999.

Definition DI400Y : Z := 146097.
Definition DI100Y : Z := 36524.
Definition DI4Y : Z := 1461.

(** The date of an ordinal, for [1 <= n] *)
Definition ord2ymd (n : Z) : Z * Z * Z :=
  let n := n - 1 in
  let n400 := n / DI400Y in let n := n mod DI400Y in
  let y := n400 * 400 + 1 in
  let n100 := n / DI100Y in let n := n mod DI100Y in
  let n4 := n / DI4Y in let n := n mod DI4Y in
  let n1 := n / 365 in let n := n mod 365 in
  let y := y + n100 * 100 + n4 * 4 + n1 in
  if (n1 =? 4) || (n100 =? 4) then (y - 1, 12, 31)
  else
    let leapyear := (n1 =? 3) && (negb (n4 =? 24) || (n100 =? 3)) in
    let m := (n + 50) / 32 in
    let preceding :=
      nth (Z.to_nat m) DAYS_BEFORE_MONTH 0 +
      (if (2 <? m) && leapyear then 1 else 0) in
    if n <? preceding
    then
      let m := m - 1 in
      let preceding :=
        preceding - (nth (Z.to_nat m) DAYS_IN_MONTH 0 +
                     (if (m =? 2) && leapyear then 1 else 0)) in
      (y, m, n - preceding + 1)
    else (y, m, n - preceding + 1).

Definition out_of_range (y : Z) : exn :=
  ValueError ("year " +:+ pretty y +:+ " is out of range").

(** [calendar.timegm(tuple)]: seconds since the epoch of a UTC date; it
    builds [datetime.date(year, month, 1)], which raises outside
    [MINYEAR .. MAXYEAR]. *)
Definition seconds_since_epoch (y m d hh mi ss : Z) : Z :=
  let days := ymd2ord y m 1 - EPOCH_ORD + d - 1 in
  let hours := days * 24 + hh in
  let minutes := hours * 60 + mi in
  minutes * 60 + ss.

Definition timegm (y m d hh mi ss : Z) : outcome Z :=
  if (MINYEAR <=? y) && (y <=? MAXYEAR)
  then Ok (seconds_since_epoch y m d hh mi ss)
  else Raise (out_of_range y).

(** [datetime.fromtimestamp(t)]: the local date and time of a POSIX time.
    [utcoffset t] is the offset of the machine's time zone, in seconds
    east of UTC, at time [t], and [local_day] the ordinal of the local
    day.  A date outside [date.min .. date.max] raises. *)
Definition local_day (utcoffset : Z → Z) (t : Z) : Z :=
  (t + utcoffset t) / 86400 + EPOCH_ORD.

Definition fromtimestamp (utcoffset : Z → Z) (t : Z) : outcome datetime :=
  let ord := local_day utcoffset t in
  let secs := (t + utcoffset t) mod 86400 in
  if (1 <=? ord) && (ord <=? MAX_ORD)
  then
    let '(y, m, d) := ord2ymd ord in
    Ok {| year := y; month := m; day := d;
          hour := secs / 3600; minute := secs mod 3600 / 60;
          second := secs mod 60 |}
  else Raise (out_of_range (if ord <? 1 then 0 else MAXYEAR + 1)).

(** [strftime] for the two formats of the script.  The year is printed on
    four digits, as the library documents it. *)
Definition strftime_Ym (dt : datetime) : string :=
  Py.zpad 4 (year dt) +:+ "-" +:+ Py.zpad 2 (month dt).

Definition strftime_Ymd_HMS (dt : datetime) : string :=
  Py.zpad 4 (year dt) +:+ "-" +:+ Py.zpad 2 (month dt) +:+ "-" +:+
  Py.zpad 2 (day dt) +:+ "_" +:+ Py.zpad 2 (hour dt) +:+ "-" +:+
  Py.zpad 2 (minute dt) +:+ "-" +:+ Py.zpad 2 (second dt).

End Calendar.

(** ** [email.utils]: [parsedate_tz] and [mktime_tz] *)

Module EmailUtils.

Definition monthnames : list string :=
  ["jan"; "feb"; "mar"; "apr"; "may"; "jun"; "jul";
   "aug"; "sep"; "oct"; "nov"; "dec";
   "january"; "february"; "march"; "april"; "may"; "june"; "july";
   "august"; "september"; "october"; "november"; "december"].

Definition daynames : list string :=
  ["mon"; "tue"; "wed"; "thu"; "fri"; "sat"; "sun"].

Definition timezones : list (string * Z) :=
  [("UT", 0); ("UTC", 0); ("GMT", 0); ("Z", 0);
   ("AST", -400); ("ADT", -300); ("EST", -500); ("EDT", -400);
   ("CST", -600); ("CDT", -500); ("MST", -700); ("MDT", -600);
   ("PST", -800); ("PDT", -700)].

Fixpoint assoc (k : string) (l : list (string * Z)) : option Z :=
  match l with
  | [] => None
  | (k', v) :: l' => if String.eqb k k' then Some v else assoc k l'
  end.

(** The fields of the 10-tuple that the callers read. *)
Record date_tuple := {
  yy : Z; mm : Z; dd : Z; thh : Z; tmm : Z; tss : Z; tzoffset : Z
}.

(** [s[-1] == ','] and [s[:-1]] *)
Definition ends_with_comma (s : string) : bool := Py.endswith "," s.
Definition chop (s : string) : string := Py.take (String.length s - 1) s.

(** The day name in front of the date is skipped, with or without the
    white space after its comma. *)
Definition drop_dayname (data : list string) : list string :=
  match data with
  | [] => []
  | d0 :: rest =>
      if ends_with_comma d0 || Py.mem (Py.lower d0) daynames then rest
      else match Py.rfind "," d0 with
           | Some i => Py.drop (S i) d0 :: rest
           | None => data
           end
  end.

(** RFC 850 dates: [dd-mmm-yy] in one token *)
Definition rfc850 (data : list string) : list string :=
  match data with
  | [d0; d1; d2] =>
      let stuff := Py.split "-" d0 in
      if (List.length stuff =? 3)%nat then (stuff ++ [d1; d2])%list else data
  | _ => data
  end.

(** A zone glued to the time is split off; a missing zone is empty. *)
Definition split_zone (data : list string) : list string :=
  match data with
  | [d0; d1; d2; s] =>
      let i := match Py.find "+" s with
               | Some i => Some i
               | None => Py.find "-" s
               end in
      match i with
      | Some (S i') => [d0; d1; d2; Py.take (S i') s; Py.drop (S i') s]
      | _ => (data ++ [""])%list
      end
  | _ => data
  end.

(** The time of day: [hh:mm], [hh:mm:ss], or the same with dots *)
Definition split_time (tm : string) : option (string * string * string) :=
  match Py.split ":" tm with
  | [h; m] => Some (h, m, "0")
  | [h; m; s] => Some (h, m, s)
  | [t0] =>
      if Py.contains "." t0
      then match Py.split "." t0 with
           | [h; m] => Some (h, m, "0")
           | [h; m; s] => Some (h, m, s)
           | _ => None
           end
      else None
  | _ => None
  end.

(** The zone: a name of the table or a signed [hhmm] number, in seconds;
    [None] when there is none or when it is [-0000]. *)
Definition zone_seconds (tz : string) : option Z :=
  let tz := Py.upper tz in
  let tzoffset :=
    match assoc tz timezones with
    | Some v => Some v
    | None =>
        match Py.int tz with
        | Some v => if (v =? 0) && Py.startswith "-" tz then None else Some v
        | None => None
        end
    end in
  match tzoffset with
  | Some v =>
      if v =? 0 then Some 0
      else if v <? 0
           then Some (- ((- v) / 100 * 3600 + (- v) mod 100 * 60))
           else Some (v / 100 * 3600 + v mod 100 * 60)
  | None => None
  end.

Definition _parsedate_tz (data : string) : option (Z * Z * Z * Z * Z * Z * option Z) :=
  if String.eqb data "" then None else
  let data := split_zone (rfc850 (drop_dayname (Py.split_ws data))) in
  match List.firstn 5 data with
  | [dd; mm; yy; tm; tz] =>
      if String.eqb dd "" || String.eqb mm "" || String.eqb yy "" then None else
      let mm := Py.lower mm in
      let '(dd, mm) :=
        if Py.mem mm monthnames then (dd, mm) else (mm, Py.lower dd) in
      if negb (Py.mem mm monthnames) then None else
      let mm := Z.of_nat (Py.index mm monthnames) + 1 in
      let mm := if 12 <? mm then mm - 12 else mm in
      let dd := if ends_with_comma dd then chop dd else dd in
      let '(yy, tm) :=
        match Py.find ":" yy with
        | Some (S _) => (tm, yy)
        | _ => (yy, tm)
        end in
      let yy := if ends_with_comma yy then chop yy else yy in
      if String.eqb yy "" then None else
      let '(yy, tz) :=
        match yy with
        | String c _ => if Py.isdigit c then (yy, tz) else (tz, yy)
        | "" => (yy, tz)
        end in
      let tm := if ends_with_comma tm then chop tm else tm in
      match split_time tm with
      | None => None
      | Some (thh, tmm, tss) =>
          match Py.int yy, Py.int dd, Py.int thh, Py.int tmm, Py.int tss with
          | Some yy, Some dd, Some thh, Some tmm, Some tss =>
              let yy :=
                if yy <? 100
                then (if 68 <? yy then yy + 1900 else yy + 2000)
                else yy in
              Some (yy, mm, dd, thh, tmm, tss, zone_seconds tz)
          | _, _, _, _, _ => None
          end
      end
  | _ => None
  end.

(** [parsedate_tz(data)], [data] being a header value or [None] *)
Definition parsedate_tz (data : option string) : option date_tuple :=
  match data with
  | None => None
  | Some data =>
      match _parsedate_tz data with
      | Some (y, m, d, hh, mi, ss, tz) =>
          Some {| yy := y; mm := m; dd := d; thh := hh; tmm := mi;
                  tss := ss; tzoffset := default 0 tz |}
      | None => None
      end
  end.

(** [mktime_tz(data)] for a tuple of [parsedate_tz], whose zone is never
    [None] *)
Definition mktime_tz (t : date_tuple) : outcome Z :=
  outcome_bind (Calendar.timegm (yy t) (mm t) (dd t) (thh t) (tmm t) (tss t))
               (λ s, Ok (s - tzoffset t)).

End EmailUtils.

#[global] Instance outcome_ret : MRet outcome := λ A a, Ok a.
#[global] Instance outcome_mbind : MBind outcome := λ A B k r, outcome_bind r k.

(** ** [os.path] on a POSIX system *)

Module OsPath.

(** [os.path.join(a, b)]; with more components it is folded from the
    left. *)
Definition join (a b : string) : string :=
  if Py.startswith "/" b then b
  else if String.eqb a "" || Py.endswith "/" a then a +:+ b
  else a +:+ "/" +:+ b.

(** [os.path.splitext(p)]: the extension starts at the last dot of the last
    component, unless only dots come before it in that component. *)
Definition splitext (p : string) : string * string :=
  let filenameIndex :=
    match Py.rfind "/" p with Some i => S i | None => 0%nat end in
  match Py.rfind "." p with
  | Some dotIndex =>
      if (filenameIndex <=? dotIndex)%nat
         && negb (String.eqb
                    (Py.lstrip (Ascii.eqb ".")
                       (Py.take (dotIndex - filenameIndex)
                                (Py.drop filenameIndex p))) "")
      then (Py.take dotIndex p, Py.drop dotIndex p)
      else (p, "")
  | None => (p, "")
  end.

(** [os.path.dirname(p)] *)
Definition dirname (p : string) : string :=
  let head :=
    match Py.rfind "/" p with Some i => Py.take (S i) p | None => "" end in
  if String.eqb (Py.lstrip (Ascii.eqb "/") head) "" then head
  else Py.rstrip (Ascii.eqb "/") head.

(** The directories above [p], outermost first.  Every step to the parent
    shortens the path, so [String.length p] steps are enough. *)
Fixpoint ancestors_go (steps : nat) (p : string) : list string :=
  match steps with
  | O => []
  | S steps' =>
      let head := dirname p in
      if String.eqb head "" || String.eqb head p then []
      else ancestors_go steps' head ++ [head]
  end%list.

Definition ancestors (p : string) : list string :=
  ancestors_go (String.length p) p.

End OsPath.

(** ** The world: local file system, IMAP session, and the trace of what
    the script did *)

Inductive node : Type :=
  | Dir
  | File (content : string).

#[global] Instance node_eq_dec : EqDecision node.
Proof. solve_decision. Defined.

Inductive level : Type := INFO | WARNING | ERROR.

Inductive imap_command : Type :=
  | CONNECT
  | LOGIN (user : string)
  | LIST
  | EXAMINE (mailbox : string)
  | SEARCH
  | FETCH (message_number : string)
  | CLOSE
  | LOGOUT.

(** Events are recorded in the order in which they happen: a log record when
    it is emitted, an IMAP command when it is sent, a change of the file
    system when it has been made. *)
Inductive event : Type :=
  | Log (lvl : level) (msg : string)
  | Imap (c : imap_command)
  | Makedirs (path : string)
  | Create (path : string)
  | Write (path : string) (data : string)
  | Sleep (milliseconds : Z).

(** The state of an [imaplib] connection *)
Inductive imap_state : Type :=
  | NONAUTH
  | AUTH
  | SELECTED (mailbox : string)
  | LOGGED_OUT.

Record World := {
  fs : gmap string node;
  session : imap_state;
  trace : list event
}.

Definition set_fs (f : gmap string node → gmap string node) (w : World) : World :=
  {| fs := f (fs w); session := session w; trace := trace w |}.
Definition set_session (st : imap_state) (w : World) : World :=
  {| fs := fs w; session := st; trace := trace w |}.
Definition emit (e : event) (w : World) : World :=
  {| fs := fs w; session := session w; trace := trace w ++ [e] |}.

(** What the server answers.  A command either raises in [imaplib] (a [BAD]
    response, a broken connection) or returns a status and data.  The answers
    to [SEARCH], [FETCH] and [CLOSE] depend on the mailbox that is selected. *)
Inductive reply (A : Type) : Type :=
  | Fails (e : exn)
  | Reply (status : string) (data : A).
Arguments Fails {A} e.
Arguments Reply {A} status data.

(** An item of the data of a [FETCH] response: a pair of an envelope and the
    message literal, or a plain byte string, or [None]. *)
Inductive fetch_item : Type :=
  | FetchPair (envelope body : string)
  | FetchBytes (b : string)
  | FetchNone.

Record Server := {
  srv_connect : option exn;
  srv_login : string → string → option exn;
  (** each entry of the listing is given by what [entry.decode()] does *)
  srv_list : reply (list (exn + string));
  srv_select : string → reply unit;
  srv_search : string → reply (list (option string));
  srv_fetch : string → string → reply (list fetch_item);
  srv_close : string → option exn;
  srv_logout : option exn
}.

(** A parsed message, as far as the script looks at it: three headers and
    the parts in the order of [walk()]. *)
Record Part := {
  get_content_maintype : string;
  (** [part.get('Content-Disposition')] *)
  content_disposition : option string;
  get_filename : option string;
  (** [part.get_payload(decode=True)], which is [None] for a part that
      holds no decodable payload, such as an attached message *)
  get_payload_decoded : option string
}.

Record EmailMessage := {
  hdr_date : option string;
  hdr_subject : option string;
  hdr_from : option string;
  walk : list Part
}.

(** What the script takes from its platform: the local time zone, the
    parser of [email.message_from_bytes], and the paths that the file system
    refuses to create or write (a full disk, missing permissions). *)
Record Platform := {
  utcoffset : Z → Z;
  message_from_bytes : string → exn + EmailMessage;
  io_fault : string → option exn
}.

(** ** Computations: state and exceptions *)

Definition M (A : Type) : Type := World → World * outcome A.

#[global] Instance M_ret : MRet M := λ A a w, (w, Ok a).
#[global] Instance M_bind : MBind M := λ A B k m w,
  match m w with
  | (w', Ok a) => k a w'
  | (w', Raise e) => (w', Raise e)
  | (w', OutOfFuel) => (w', OutOfFuel)
  end.

(** A pure computation that may raise *)
Definition lift {A} (r : outcome A) : M A := λ w, (w, r).

(** [try: m except Exception as e: h e] *)
Definition try_except {A} (m : M A) (h : exn → M A) : M A := λ w,
  match m w with
  | (w', Raise e) => h e w'
  | r => r
  end.

(** [for x in l: body x] *)
Fixpoint for_each {A} (body : A → M unit) (l : list A) : M unit :=
  match l with
  | [] => mret tt
  | x :: l' => body x ;; for_each body l'
  end.

Definition reads {A} (f : World → A) : M A := λ w, (w, Ok (f w)).

Definition logging (lvl : level) (msg : string) : M unit :=
  λ w, (emit (Log lvl msg) w, Ok tt).

Definition sleep (milliseconds : Z) : M unit :=
  λ w, (emit (Sleep milliseconds) w, Ok tt).

(** ** File system calls *)

Definition path_exists (files : gmap string node) (path : string) : bool :=
  bool_decide (is_Some (files !! path)).

(** One directory of [os.makedirs(path, exist_ok=True)]: it is created when
    it is missing, and a file in its place is an error. *)
Definition ensure_dir (r : outcome (gmap string node)) (path : string) :
    outcome (gmap string node) :=
  files ← r;
  match files !! path with
  | None => Ok (<[path := Dir]> files)
  | Some Dir => Ok files
  | Some (File _) => Raise (OSError ("File exists: '" +:+ path +:+ "'"))
  end.

Section Calls.

Context (platform : Platform) (srv : Server).

(** [os.makedirs(path, exist_ok=True)]: the directory and the missing
    directories above it *)
Definition makedirs (path : string) : M unit := λ w,
  match io_fault platform path with
  | Some e => (w, Raise e)
  | None =>
      match foldl ensure_dir (Ok (fs w)) (OsPath.ancestors path ++ [path]) with
      | Ok files => (emit (Makedirs path) (set_fs (λ _, files) w), Ok tt)
      | Raise e => (w, Raise e)
      | OutOfFuel => (w, OutOfFuel)
      end
  end.

(** [with open(path, 'wb') as f: f.write(data)].  Opening creates the file
    or empties it; writing [None] raises once the file is open. *)
Definition open_write (path : string) (data : option string) : M unit := λ w,
  match io_fault platform path with
  | Some e => (w, Raise e)
  | None =>
      if bool_decide (fs w !! path = Some Dir)
      then (w, Raise (OSError ("Is a directory: '" +:+ path +:+ "'")))
      else if negb (String.eqb (OsPath.dirname path) "")
              && negb (bool_decide (fs w !! OsPath.dirname path = Some Dir))
      then (w, Raise (OSError ("No such file or directory: '" +:+ path +:+ "'")))
      else
        let w := emit (Create path) (set_fs (insert path (File "")) w) in
        match data with
        | None =>
            (w, Raise (TypeError
                         "a bytes-like object is required, not 'NoneType'"))
        | Some b =>
            (emit (Write path b) (set_fs (insert path (File b)) w), Ok tt)
        end
  end.

(** *** [imaplib] *)

Definition illegal (command : string) : exn :=
  IMAP4_error ("command " +:+ command +:+ " illegal in this state").

(** [imaplib.IMAP4_SSL(host)] *)
Definition imap_connect : M unit := λ w,
  let w := emit (Imap CONNECT) w in
  match srv_connect srv with
  | Some e => (w, Raise e)
  | None => (set_session NONAUTH w, Ok tt)
  end.

Definition imap_login (user password : string) : M unit := λ w,
  match session w with
  | NONAUTH =>
      let w := emit (Imap (LOGIN user)) w in
      match srv_login srv user password with
      | Some e => (w, Raise e)
      | None => (set_session AUTH w, Ok tt)
      end
  | _ => (w, Raise (illegal "LOGIN"))
  end.

Definition imap_list : M (string * list (exn + string)) := λ w,
  match session w with
  | AUTH | SELECTED _ =>
      let w := emit (Imap LIST) w in
      match srv_list srv with
      | Fails e => (w, Raise e)
      | Reply status data => (w, Ok (status, data))
      end
  | _ => (w, Raise (illegal "LIST"))
  end.

(** [mail.select(mailbox, readonly=True)]: a status other than [OK] leaves
    no mailbox selected. *)
Definition imap_select (mailbox : string) : M (string * unit) := λ w,
  match session w with
  | AUTH | SELECTED _ =>
      let w := emit (Imap (EXAMINE mailbox)) w in
      match srv_select srv mailbox with
      | Fails e => (w, Raise e)
      | Reply status data =>
          if String.eqb status "OK"
          then (set_session (SELECTED mailbox) w, Ok (status, data))
          else (set_session AUTH w, Ok (status, data))
      end
  | _ => (w, Raise (illegal "EXAMINE"))
  end.

Definition imap_search : M (string * list (option string)) := λ w,
  match session w with
  | SELECTED mailbox =>
      let w := emit (Imap SEARCH) w in
      match srv_search srv mailbox with
      | Fails e => (w, Raise e)
      | Reply status data => (w, Ok (status, data))
      end
  | _ => (w, Raise (illegal "SEARCH"))
  end.

Definition imap_fetch (message_number : string) :
    M (string * list fetch_item) := λ w,
  match session w with
  | SELECTED mailbox =>
      let w := emit (Imap (FETCH message_number)) w in
      match srv_fetch srv mailbox message_number with
      | Fails e => (w, Raise e)
      | Reply status data => (w, Ok (status, data))
      end
  | _ => (w, Raise (illegal "FETCH"))
  end.

(** [mail.close()]: whatever the server answers, no mailbox is selected
    afterwards. *)
Definition imap_close : M unit := λ w,
  match session w with
  | SELECTED mailbox =>
      let w := set_session AUTH (emit (Imap CLOSE) w) in
      match srv_close srv mailbox with
      | Some e => (w, Raise e)
      | None => (w, Ok tt)
      end
  | _ => (w, Raise (illegal "CLOSE"))
  end.

Definition imap_logout : M unit := λ w,
  let w := set_session LOGGED_OUT (emit (Imap LOGOUT) w) in
  match srv_logout srv with
  | Some e => (w, Raise e)
  | None => (w, Ok tt)
  end.

End Calls.

(** ** The script *)

(** The double quote, and the separator that the listing puts between the
    flags of a mailbox and its name: a slash between double quotes. *)
Definition dquote : string := String "034" "".
Definition listing_separator : string := dquote +:+ "/" +:+ dquote.

(** [b.split()] on bytes splits at the ASCII white space. *)
Definition split_bytes (b : string) : list string := String.words b.

(** [range(0, stop, step)] as the list of its values, for [0 <= stop] *)
Definition range_from_zero (stop : nat) (step : Z) : outcome (list Z) :=
  if step =? 0 then Raise (ValueError "range() arg 3 must not be zero")
  else if step <? 0 then Ok []
  else Ok ((λ k, Z.of_nat k * step) <$>
           seq 0 (Z.to_nat ((Z.of_nat stop + step - 1) / step))).

(** [l[i:j]] for [0 <= i] and [0 <= j] *)
Definition slice {A} (l : list A) (i j : Z) : list A :=
  List.firstn (Z.to_nat j - Z.to_nat i) (List.skipn (Z.to_nat i) l).

(** [enumerate(l)] *)
Definition enumerate {A} (l : list A) : list (Z * A) :=
  imap (λ i x, (Z.of_nat i, x)) l.

(** What remains to be done in an iteration of the loop over the mailboxes
    once its [try] statement is left: a [continue] inside it skips the rest
    of the iteration. *)
Inductive control : Type := Continue | FallThrough.

Section Archiver.

Context (platform : Platform) (srv : Server).

Definition get_email_date (email_message : EmailMessage) : outcome string :=
  match EmailUtils.parsedate_tz (hdr_date email_message) with
  | Some date_tuple =>
      t ← EmailUtils.mktime_tz date_tuple;
      local_date ← Calendar.fromtimestamp (utcoffset platform) t;
      Ok (Calendar.strftime_Ymd_HMS local_date)
  | None => Ok "unknown_date"
  end.

Definition get_email_folder_path (email_message : EmailMessage)
    (base_path : string) : outcome string :=
  match EmailUtils.parsedate_tz (hdr_date email_message) with
  | Some date_tuple =>
      t ← EmailUtils.mktime_tz date_tuple;
      local_date ← Calendar.fromtimestamp (utcoffset platform) t;
      let year_month := Calendar.strftime_Ym local_date in
      Ok (OsPath.join base_path year_month)
  | None => Ok (OsPath.join base_path "unknown_date")
  end.

(** The base name that [get_unique_filename] builds from the date it has
    formatted and the headers of the message *)
Definition base_filename (date : string) (email_message : EmailMessage) : string :=
  let subject := default "No Subject" (hdr_subject email_message) in
  let subject := sanitize_filename subject in
  let from_addr := default "unknown@sender.com" (hdr_from email_message) in
  let from_addr :=
    sanitize_filename
      (if Py.contains "<" from_addr
       then Py.first_piece (Py.split ">" (Py.last_piece (Py.split "<" from_addr)))
       else from_addr) in
  let base_filename := date +:+ "_" +:+ from_addr +:+ "_" +:+ Py.take 50 subject in
  if (120 <? String.length base_filename)%nat
  then Py.take 120 base_filename
  else base_filename.

(** The loop [while os.path.exists(os.path.join(folder_path, filename))] *)
Fixpoint unique_loop (files : gmap string node) (folder_path base : string)
    (fuel : nat) (filename : string) (counter : nat) : outcome string :=
  match fuel with
  | O => OutOfFuel
  | S fuel' =>
      if path_exists files (OsPath.join folder_path filename)
      then unique_loop files folder_path base fuel'
             (base +:+ "_" +:+ pretty counter +:+ ".eml") (S counter)
      else Ok filename
  end.

Definition get_unique_filename (files : gmap string node)
    (email_message : EmailMessage) (folder_path : string) : outcome string :=
  date ← get_email_date email_message;
  let base := base_filename date email_message in
  unique_loop files folder_path base (S (size files)) (base +:+ ".eml") 1.

(** The loop [while os.path.exists(filepath)] of [save_attachments] *)
Fixpoint attachment_loop (files : gmap string node)
    (attachments_path filename : string)
    (fuel : nat) (filepath : string) (counter : nat) : outcome string :=
  match fuel with
  | O => OutOfFuel
  | S fuel' =>
      if path_exists files filepath
      then
        let '(name, ext) := OsPath.splitext filename in
        attachment_loop files attachments_path filename fuel'
          (OsPath.join attachments_path (name +:+ "_" +:+ pretty counter +:+ ext))
          (S counter)
      else Ok filepath
  end.

(** The body of the loop of [save_attachments] over the parts that remain,
    [attachments_path] being the folder created so far, if any *)
Fixpoint save_parts (email_message : EmailMessage) (base_path : string)
    (parts : list Part) (attachments_path : option string) : M unit :=
  match parts with
  | [] => mret tt
  | part :: parts' =>
      if String.eqb (get_content_maintype part) "multipart"
      then save_parts email_message base_path parts' attachments_path
      else if bool_decide (content_disposition part = None)
      then save_parts email_message base_path parts' attachments_path
      else
        match get_filename part with
        | None | Some "" =>
            save_parts email_message base_path parts' attachments_path
        | Some filename =>
            attachments_path ←
              match attachments_path with
              | Some p => mret p
              | None =>
                  date ← lift (get_email_date email_message);
                  let subject :=
                    Py.take 30 (sanitize_filename
                      (default "No Subject" (hdr_subject email_message))) in
                  let attach_folder_name :=
                    date +:+ "_" +:+ subject +:+ "_attachments" in
                  let p := OsPath.join (OsPath.join base_path "attachments")
                                       attach_folder_name in
                  makedirs platform p;;
                  mret p
              end;
            let filename := sanitize_filename filename in
            let filepath := OsPath.join attachments_path filename in
            filepath ← (λ w, (w, attachment_loop (fs w) attachments_path filename
                                   (S (size (fs w))) filepath 1));
            open_write platform filepath (get_payload_decoded part);;
            logging INFO ("Saved attachment: " +:+ filepath);;
            save_parts email_message base_path parts' (Some attachments_path)
        end
  end.

Definition save_attachments (email_message : EmailMessage)
    (base_path : string) : M unit :=
  save_parts email_message base_path (walk email_message) None.

(** [msg_data[0][1]] *)
Definition first_literal (msg_data : list fetch_item) : outcome string :=
  match msg_data with
  | [] => Raise (IndexError "list index out of range")
  | FetchPair _ body :: _ => Ok body
  | FetchBytes _ :: _ =>
      Raise (AttributeError "'int' object has no attribute 'decode'")
  | FetchNone :: _ =>
      Raise (TypeError "'NoneType' object is not subscriptable")
  end.

(** Parsing the message and saving it as an [.eml] file: the statements of
    the loop body between the fetch and the attachments.  The result is
    the parsed message, its date folder and the path of the file. *)
Definition save_email (folder_path : string) (msg_data : list fetch_item) :
    M (EmailMessage * string * string) :=
  raw_email ← lift (first_literal msg_data);
  email_message ← lift (returned (message_from_bytes platform raw_email));
  date_folder ← lift (get_email_folder_path email_message folder_path);
  makedirs platform date_folder;;
  filename ← (λ w, (w, get_unique_filename (fs w) email_message date_folder));
  let filepath := OsPath.join date_folder filename in
  open_write platform filepath (Some raw_email);;
  mret (email_message, date_folder, filepath).

(** The [try] block of the loop over the messages of a batch *)
Definition message_body (folder_path : string) (msg_index : Z)
    (message_number : string) : M unit :=
  '(status, msg_data) ← imap_fetch srv message_number;
  if negb (String.eqb status "OK")
  then logging WARNING ("Failed to fetch message " +:+
                        Py.repr_bytes message_number +:+ ", skipping...")
  else
    '(email_message, date_folder, _) ← save_email folder_path msg_data;
    save_attachments email_message date_folder;;
    if (msg_index mod 10 =? 0) && (0 <? msg_index) then sleep 100 else mret tt.

Definition process_message (folder_path : string) (item : Z * string) : M unit :=
  let '(msg_index, message_number) := item in
  try_except (message_body folder_path msg_index message_number)
    (λ e, logging ERROR ("Error processing message " +:+
                         Py.repr_bytes message_number +:+ ": " +:+ str_exn e)).

(** One batch: the body of the loop over [range(0, total_messages,
    batch_size)] *)
Definition process_batch (folder_path : string) (batch_size : Z)
    (message_numbers : list string) (i : Z) : M unit :=
  let total_messages := Z.of_nat (List.length message_numbers) in
  let batch_end := Z.min (i + batch_size) total_messages in
  let batch_numbers := slice message_numbers i batch_end in
  logging INFO ("Processing batch " +:+ pretty (i / batch_size + 1) +:+ " (" +:+
                pretty (i + 1) +:+ "-" +:+ pretty batch_end +:+ " of " +:+
                pretty total_messages +:+ ")");;
  for_each (process_message folder_path) (enumerate batch_numbers);;
  if batch_end <? total_messages then sleep 1000 else mret tt.

(** [message_count_data[0].split()] *)
Definition message_numbers_of (message_count_data : list (option string)) :
    outcome (list string) :=
  match message_count_data with
  | [] => Raise (IndexError "list index out of range")
  | None :: _ => Raise (AttributeError "'NoneType' object has no attribute 'split'")
  | Some b :: _ => Ok (split_bytes b)
  end.

(** The [try] block of the loop over the mailboxes *)
Definition mailbox_body (folder_name folder_path : string) (batch_size : Z) :
    M control :=
  logging INFO ("Processing folder: " +:+ folder_name);;
  '(status, _) ← imap_select srv (dquote +:+ folder_name +:+ dquote);
  if negb (String.eqb status "OK")
  then
    logging WARNING ("Could not select folder: " +:+ folder_name +:+ ", skipping...");;
    mret Continue
  else
    '(status, message_count_data) ← imap_search srv;
    if negb (String.eqb status "OK")
    then
      logging WARNING ("Could not search folder: " +:+ folder_name +:+ ", skipping...");;
      mret Continue
    else
      message_numbers ← lift (message_numbers_of message_count_data);
      let total_messages := List.length message_numbers in
      logging INFO ("Found " +:+ pretty total_messages +:+ " messages in " +:+
                    folder_name);;
      batches ← lift (range_from_zero total_messages batch_size);
      for_each (process_batch folder_path batch_size message_numbers) batches;;
      mret FallThrough.

(** [include_folders and folder_name not in include_folders]: [None] and
    the empty list are both false in a condition. *)
Definition skipped (include_folders : option (list string))
    (folder_name : string) : bool :=
  match include_folders with
  | None | Some [] => false
  | Some names => negb (Py.mem folder_name names)
  end.

(** The name of the mailbox in an entry of the listing *)
Definition folder_name_of (folder_info : exn + string) : outcome string :=
  decoded ← returned folder_info;
  Ok (Py.strip (Ascii.eqb "034")
        (Py.strip Py.is_space
           (Py.last_piece (Py.split listing_separator decoded)))).

(** The body of the loop over the mailboxes *)
Definition process_folder (output_dir : string) (batch_size : Z)
    (include_folders : option (list string)) (folder_info : exn + string) :
    M unit :=
  folder_name ← lift (folder_name_of folder_info);
  if skipped include_folders folder_name then mret tt
  else
    let safe_folder_name := sanitize_filename folder_name in
    let folder_path := OsPath.join output_dir safe_folder_name in
    makedirs platform folder_path;;
    c ← try_except (mailbox_body folder_name folder_path batch_size)
          (λ e, logging ERROR ("Error processing folder " +:+ folder_name +:+
                               ": " +:+ str_exn e);;
                mret FallThrough);
    match c with
    | Continue => mret tt
    | FallThrough => imap_close srv
    end.

Definition archive_gmail (username password output_dir : string)
    (batch_size : Z) (include_folders : option (list string)) : M unit :=
  try_except
    (logging INFO "Connecting to Gmail...";;
     imap_connect srv;;
     imap_login srv username password;;
     makedirs platform output_dir;;
     '(status, folder_list) ← imap_list srv;
     if negb (String.eqb status "OK")
     then logging ERROR "Failed to retrieve folder list"
     else
       for_each (process_folder output_dir batch_size include_folders)
                folder_list;;
       imap_logout srv;;
       logging INFO "Gmail archiving completed successfully")
    (λ e, logging ERROR ("Error in archiving process: " +:+ str_exn e)).

End Archiver.

(** ** The base name in the words of the design document *)

(** The text after the last [c] of [s], and the text before its first [c];
    all of [s] when it has no [c]. *)
Definition after_last (c : ascii) (s : string) : string :=
  match Py.rfind c s with Some i => Py.drop (S i) s | None => s end.

Definition before_first (c : ascii) (s : string) : string :=
  match Py.find c s with Some i => Py.take i s | None => s end.

(** The sender address: the bracketed address of the From header when the
    header has an opening bracket, the raw header value otherwise. *)
Definition sender_address (from_header : string) : string :=
  if Py.contains "<" from_header
  then before_first ">" (after_last "<" from_header)
  else from_header.

(** Timestamp, sanitized sender address and sanitized subject prefix, joined
    by underscores; the subject is cut to 50 characters before it is
    sanitized, the whole name to 120 characters. *)
Definition designed_base_name (timestamp from_header subject : string) : string :=
  Py.take 120
    (timestamp +:+ "_" +:+ sanitize_filename (sender_address from_header) +:+ "_" +:+
     sanitize_filename (Py.take 50 subject)).

(** ** The local day of a parsed date *)

(** The POSIX time of a parsed date whose year the calendar supports, and
    the ordinal of its day in the time zone of the machine. *)
Definition posix_time (t : EmailUtils.date_tuple) : Z :=
  Calendar.seconds_since_epoch
    (EmailUtils.yy t) (EmailUtils.mm t) (EmailUtils.dd t)
    (EmailUtils.thh t) (EmailUtils.tmm t) (EmailUtils.tss t)
  - EmailUtils.tzoffset t.

Definition local_ordinal (platform : Platform) (t : EmailUtils.date_tuple) : Z :=
  Calendar.local_day (utcoffset platform) (posix_time t).

(** The dates that [datetime] supports: the year of the header within
    [MINYEAR .. MAXYEAR], and the local day within [date.min .. date.max]. *)
Definition supported (platform : Platform) (t : EmailUtils.date_tuple) : bool :=
  (Calendar.MINYEAR <=? EmailUtils.yy t) && (EmailUtils.yy t <=? Calendar.MAXYEAR)
  && (1 <=? local_ordinal platform t)
  && (local_ordinal platform t <=? Calendar.MAX_ORD).

(** ** Sample data *)

Module Sample.

(** A machine on UTC, a parser that finds nothing to parse, a file system
    without faults *)
Definition no_message : EmailMessage :=
  {| hdr_date := None; hdr_subject := None; hdr_from := None; walk := [] |}.

Definition utc : Platform :=
  {| utcoffset := λ _, 0;
     message_from_bytes := λ _, inr no_message;
     io_fault := λ _, None |}.

Definition dated (date : string) : EmailMessage :=
  {| hdr_date := Some date; hdr_subject := Some "Hello";
     hdr_from := Some "Ann <ann@example.org>"; walk := [] |}.

(** A forwarded message: a multipart container, a text body, the original
    message attached as [message/rfc822] (a part with nothing to decode),
    and a PDF attached after it *)
Definition attachment (maintype filename : string) (payload : option string) : Part :=
  {| get_content_maintype := maintype;
     content_disposition := Some "attachment";
     get_filename := Some filename;
     get_payload_decoded := payload |}.

Definition forwarded : EmailMessage :=
  {| hdr_date := Some "Mon, 2 Jan 2023 10:00:00 +0000";
     hdr_subject := Some "Fwd: report";
     hdr_from := Some "Ann <ann@example.org>";
     walk :=
       [ {| get_content_maintype := "multipart"; content_disposition := None;
            get_filename := None; get_payload_decoded := None |};
         {| get_content_maintype := "text"; content_disposition := None;
            get_filename := None; get_payload_decoded := Some "see attached" |};
         attachment "message" "original.eml" None;
         attachment "application" "report.pdf" (Some "%PDF-1.4") ] |}.

(** An entry of the mailbox listing, already decoded *)
Definition listing_entry (name : string) : exn + string :=
  inr ("(\HasNoChildren) " +:+ listing_separator +:+ " " +:+ dquote +:+ name +:+ dquote).

(** A server with two mailboxes: both can be selected, the search of the
    first one is refused, the second one holds two messages. *)
Definition two_mailboxes : Server :=
  {| srv_connect := None;
     srv_login := λ _ _, None;
     srv_list := Reply "OK" [listing_entry "Spam"; listing_entry "INBOX"];
     srv_select := λ _, Reply "OK" tt;
     srv_search := λ mailbox,
       if String.eqb mailbox (dquote +:+ "Spam" +:+ dquote)
       then Reply "NO" [Some "SEARCH refused"]
       else Reply "OK" [Some "1 2"];
     srv_fetch := λ _ _, Reply "OK" [FetchPair "1 (RFC822 {3}" "raw"; FetchBytes ")"];
     srv_close := λ _, None;
     srv_logout := None |}.

(** An empty disk and no connection yet; a disk that has the date folder of
    a mailbox *)
Definition fresh : World := {| fs := ∅; session := LOGGED_OUT; trace := [] |}.

(** The same disk once the session is authenticated *)
Definition connected : World := {| fs := ∅; session := AUTH; trace := [] |}.

Definition with_date_folder : World :=
  {| fs := {[ "out" := Dir; "out/INBOX" := Dir; "out/INBOX/2023-01" := Dir ]};
     session := SELECTED "INBOX"; trace := [] |}.

End Sample.

(** ** The names of the collision policy *)

(** The names that the collision policy tries in turn for a base name:
    [base.eml], then [base_1.eml], [base_2.eml], and so on. *)
Definition eml_candidate (base : string) (k : nat) : string :=
  match k with
  | O => base +:+ ".eml"
  | S _ => base +:+ "_" +:+ pretty k +:+ ".eml"
  end.

(** The same for an attachment: the file name, then the stem, a number and
    the extension. *)
Definition attachment_candidate (filename : string) (k : nat) : string :=
  match k with
  | O => filename
  | S _ => (OsPath.splitext filename).1 +:+ "_" +:+ pretty k +:+
           (OsPath.splitext filename).2
  end.

(** ** What a run leaves behind *)

(** The paths of the files that a stretch of the trace created *)
Definition created (events : list event) : list string :=
  omap (λ e, match e with Create path => Some path | _ => None end) events.

(** The IMAP commands that a stretch of the trace sent *)
Definition imap_commands (events : list event) : list imap_command :=
  omap (λ e, match e with Imap c => Some c | _ => None end) events.

(** [w'] continues [w]: the trace has grown at its end, everything that was
    in the file system is still there unchanged, and every file created in
    between was created once, at a path where nothing was, and is there. *)
Definition continues (w w' : World) : Prop :=
  ∃ events,
    trace w' = (trace w ++ events)%list
    ∧ fs w ⊆ fs w'
    ∧ NoDup (created events)
    ∧ ∀ path, path ∈ created events →
        fs w !! path = None ∧ is_Some (fs w' !! path).

(** A computation is orderly when, from every world, it ends (the fuel of
    its loops is enough) in a world that continues the one it started
    from. *)
Definition orderly_at {A} (m : M A) (w : World) : Prop :=
  continues w (m w).1 ∧ (m w).2 ≠ OutOfFuel.

Definition orderly {A} (m : M A) : Prop := ∀ w, orderly_at m w.

(** The world after the messages of a batch have been processed one after
    the other, each of them to the end of its iteration *)
Definition after_messages (platform : Platform) (srv : Server)
    (folder_path : string) (items : list (Z * string)) (w : World) : World :=
  foldl (λ w item, (process_message platform srv folder_path item w).1) w items.

(* ===================================================================== *)
(** * Properties *)
(* ===================================================================== *)

(** ** Sanitizer *)

Lemma sanitize_filename_cons c s :
  sanitize_filename (String c s) =
  String (if is_reserved c then "_"%char else c) (sanitize_filename s).
Proof. unfold sanitize_filename. simpl. by destruct (is_reserved c). Qed.

Lemma sanitize_filename_length s :
  String.length (sanitize_filename s) = String.length s.
Proof.
  induction s as [|c s IH]; [done|].
  rewrite sanitize_filename_cons. simpl. by rewrite IH.
Qed.

Lemma sanitize_filename_clean s :
  Forall (λ c, is_reserved c = false) (list_ascii_of_string (sanitize_filename s)).
Proof.
  induction s as [|c s IH]; [constructor|].
  rewrite sanitize_filename_cons. simpl. constructor; [|done].
  by destruct (is_reserved c) eqn:E.
Qed.

Lemma sanitize_filename_fixed s :
  Forall (λ c, is_reserved c = false) (list_ascii_of_string s) →
  sanitize_filename s = s.
Proof.
  induction s as [|c s IH]; [done|].
  simpl. intros [Hc Hs]%Forall_cons. rewrite sanitize_filename_cons, Hc.
  by rewrite IH.
Qed.

(** C8. For every string, [sanitize_filename] replaces each reserved
    character by an underscore and leaves every other character (and the
    length) as it is; the result holds no reserved character; the empty
    string is mapped to itself; a string without reserved characters is a
    fixed point, and sanitizing twice is sanitizing once. *)
Theorem sanitize_filename_spec (s : string) :
  sanitize_filename s =
    Py.map_chars (λ c, if is_reserved c then "_"%char else c) s
  ∧ Forall (λ c, is_reserved c = false)
           (list_ascii_of_string (sanitize_filename s))
  ∧ sanitize_filename "" = ""
  ∧ (Forall (λ c, is_reserved c = false) (list_ascii_of_string s) →
     sanitize_filename s = s)
  ∧ sanitize_filename (sanitize_filename s) = sanitize_filename s.
Proof.
  split_and!.
  - induction s as [|c s IH]; [done|].
    rewrite sanitize_filename_cons. simpl. by rewrite IH.
  - apply sanitize_filename_clean.
  - done.
  - apply sanitize_filename_fixed.
  - apply sanitize_filename_fixed, sanitize_filename_clean.
Qed.

(** ** Base name of a message *)

Lemma rev_app_nil s : String.rev_app "" s = s.
Proof. done. Qed.

Lemma split_go_nonempty sep s skip cur : Py.split_go sep s skip cur ≠ [].
Proof.
  revert skip cur. induction s as [|c s IH]; intros skip cur; simpl; [done|].
  destruct skip; [|apply IH]. destruct (Py.startswith sep _); [done|apply IH].
Qed.

Lemma last_cons_nonempty {A} (x d : A) l : l ≠ [] → List.last (x :: l) d = List.last l d.
Proof. by destruct l. Qed.

(** The last piece of a split at one character is what follows its last
    occurrence. *)
Lemma split_char_last c s cur :
  Py.last_piece (Py.split_go (String c "") s 0 cur) =
  match Py.rfind c s with
  | Some i => Py.drop (S i) s
  | None => String.rev_app cur s
  end.
Proof.
  unfold Py.last_piece. revert cur.
  induction s as [|d s IH]; intros cur; [done|].
  cbn [Py.split_go Py.startswith Py.rfind String.length Nat.sub].
  destruct (Ascii.eqb_spec c d) as [->|Hne]; cbn [andb].
  - rewrite last_cons_nonempty by apply split_go_nonempty.
    rewrite IH. by destruct (Py.rfind d s).
  - rewrite IH. by destruct (Py.rfind c s).
Qed.

(** The first piece is what precedes the first occurrence. *)
Lemma split_char_first c s cur :
  Py.first_piece (Py.split_go (String c "") s 0 cur) =
  String.rev_app cur (match Py.find c s with Some i => Py.take i s | None => s end).
Proof.
  unfold Py.first_piece. revert cur.
  induction s as [|d s IH]; intros cur; [done|].
  cbn [Py.split_go Py.startswith Py.find String.length Nat.sub].
  destruct (Ascii.eqb_spec c d) as [->|Hne]; cbn [andb].
  - done.
  - rewrite IH. by destruct (Py.find c s).
Qed.

Lemma bracketed_address from_addr :
  Py.first_piece (Py.split ">" (Py.last_piece (Py.split "<" from_addr))) =
  before_first ">" (after_last "<" from_addr).
Proof.
  unfold Py.split. rewrite split_char_first, split_char_last. done.
Qed.

Lemma take_sanitize n s :
  Py.take n (sanitize_filename s) = sanitize_filename (Py.take n s).
Proof.
  revert s. induction n as [|n IH]; intros [|c s]; try done.
  rewrite sanitize_filename_cons. cbn [Py.take].
  by rewrite sanitize_filename_cons, IH.
Qed.

Lemma take_all n s : (String.length s ≤ n)%nat → Py.take n s = s.
Proof.
  revert s. induction n as [|n IH]; intros [|c s] Hlen; simpl in *; try done; [lia|].
  rewrite IH; [done|lia].
Qed.

(** C7. The base name that [get_unique_filename] builds is the formatted
    timestamp, the sanitized sender address and the sanitized subject prefix,
    joined by underscores: the sender address is the bracketed address of
    the From header when it has an opening bracket and the raw value
    otherwise, the subject is cut to 50 characters (cutting before or after
    sanitizing gives the same text), and the whole is cut to 120
    characters.  The timestamp is the one of [get_email_date], and the file
    name is this base name followed by [.eml] when that name is free. *)
Theorem base_filename_designed (platform : Platform) (date : string)
    (email_message : EmailMessage) :
  base_filename date email_message =
    designed_base_name date
      (default "unknown@sender.com" (hdr_from email_message))
      (default "No Subject" (hdr_subject email_message))
  ∧ ∀ folder_path,
      get_unique_filename platform ∅ email_message folder_path =
      date' ← get_email_date platform email_message;
      Ok (base_filename date' email_message +:+ ".eml").
Proof.
  split.
  - unfold base_filename, designed_base_name, sender_address.
    rewrite bracketed_address, take_sanitize.
    destruct (_ <? _)%nat eqn:Hlen; [done|].
    apply Nat.ltb_ge in Hlen. by rewrite (take_all 120).
  - intros folder_path. unfold get_unique_filename.
    by destruct (get_email_date platform email_message).
Qed.

(** ** Computations *)

Lemma outcome_bind_Ok {A B} (a : A) (k : A → outcome B) : Ok a ≫= k = k a.
Proof. done. Qed.

Lemma outcome_bind_Raise {A B} e (k : A → outcome B) : Raise e ≫= k = Raise e.
Proof. done. Qed.

(** ** Date buckets *)

Lemma mktime_tz_supported t :
  (Calendar.MINYEAR <=? EmailUtils.yy t) && (EmailUtils.yy t <=? Calendar.MAXYEAR) = true →
  EmailUtils.mktime_tz t = Ok (posix_time t).
Proof.
  intros Hy. unfold EmailUtils.mktime_tz, Calendar.timegm. rewrite Hy.
  unfold outcome_bind, posix_time. reflexivity.
Qed.

Lemma mktime_tz_unsupported t :
  (Calendar.MINYEAR <=? EmailUtils.yy t) && (EmailUtils.yy t <=? Calendar.MAXYEAR) = false →
  EmailUtils.mktime_tz t = Raise (Calendar.out_of_range (EmailUtils.yy t)).
Proof.
  intros Hy. unfold EmailUtils.mktime_tz, Calendar.timegm. rewrite Hy.
  reflexivity.
Qed.

(** The day of 2 January 2023, 10:00 UTC, seen from a zone less than a day
    away from UTC, is the first, second or third of January 2023. *)
Lemma january_2023 (offset : Z) :
  -86400 < offset < 86400 →
  (1672653600 + offset) / 86400 + Calendar.EPOCH_ORD ∈ [738521; 738522; 738523].
Proof.
  intros Hoff. unfold Calendar.EPOCH_ORD.
  pose proof (Z.div_mod (1672653600 + offset) 86400 ltac:(lia)) as Hdiv.
  pose proof (Z.mod_pos_bound (1672653600 + offset) 86400 ltac:(lia)) as Hmod.
  assert ((1672653600 + offset) / 86400 = 19358 ∨
          (1672653600 + offset) / 86400 = 19359 ∨
          (1672653600 + offset) / 86400 = 19360) as [-> | [-> | ->]] by lia;
    simpl; repeat constructor.
Qed.

Lemma get_email_folder_path_parsed platform email_message base_path t :
  EmailUtils.parsedate_tz (hdr_date email_message) = Some t →
  get_email_folder_path platform email_message base_path =
  if supported platform t
  then Ok (OsPath.join base_path
             (Py.zpad 4 (Calendar.ord2ymd (local_ordinal platform t)).1.1 +:+ "-" +:+
              Py.zpad 2 (Calendar.ord2ymd (local_ordinal platform t)).1.2))
  else Raise (if (Calendar.MINYEAR <=? EmailUtils.yy t)
                 && (EmailUtils.yy t <=? Calendar.MAXYEAR)
              then Calendar.out_of_range
                     (if local_ordinal platform t <? 1 then 0
                      else Calendar.MAXYEAR + 1)
              else Calendar.out_of_range (EmailUtils.yy t)).
Proof.
  intros Hparse.
  unfold get_email_folder_path, supported, local_ordinal. rewrite Hparse.
  destruct ((Calendar.MINYEAR <=? EmailUtils.yy t)
            && (EmailUtils.yy t <=? Calendar.MAXYEAR)) eqn:Hy; cbn [andb].
  - rewrite mktime_tz_supported, outcome_bind_Ok by exact Hy.
    unfold Calendar.fromtimestamp.
    destruct (1 <=? Calendar.local_day _ _) eqn:H1; cbn [andb]; [|reflexivity].
    destruct (_ <=? Calendar.MAX_ORD) eqn:H2; [|reflexivity].
    destruct (Calendar.ord2ymd _) as [[y m] d]. reflexivity.
  - rewrite mktime_tz_unsupported by exact Hy. reflexivity.
Qed.

(** C6 (amended). [get_email_folder_path] returns [base_path/unknown_date]
    when the Date header is missing or does not parse.  When it parses to a
    date that [datetime] supports (year 1 to 9999, also in local time), it
    returns [base_path/YYYY-MM], the year and the month of the local day of
    that instant; when it parses to a date outside that range the function
    raises.  A message dated Mon, 2 Jan 2023 10:00:00 +0000 goes to
    [2023-01] on every machine whose zone is less than a day from UTC. *)
Theorem get_email_folder_path_buckets (platform : Platform)
    (email_message : EmailMessage) (base_path : string) :
  match EmailUtils.parsedate_tz (hdr_date email_message) with
  | None =>
      get_email_folder_path platform email_message base_path =
      Ok (OsPath.join base_path "unknown_date")
  | Some t =>
      if supported platform t
      then
        let '(y, m, _) := Calendar.ord2ymd (local_ordinal platform t) in
        get_email_folder_path platform email_message base_path =
        Ok (OsPath.join base_path (Py.zpad 4 y +:+ "-" +:+ Py.zpad 2 m))
      else
        ∃ e, get_email_folder_path platform email_message base_path = Raise e
  end
  ∧ EmailUtils.parsedate_tz None = None
  ∧ EmailUtils.parsedate_tz (Some "not a date") = None
  ∧ (hdr_date email_message = Some "Mon, 2 Jan 2023 10:00:00 +0000" →
     (∀ t, -86400 < utcoffset platform t < 86400) →
     get_email_folder_path platform email_message base_path =
     Ok (OsPath.join base_path "2023-01")).
Proof.
  split_and!; [|reflexivity|vm_compute; reflexivity|].
  - destruct (EmailUtils.parsedate_tz _) as [t|] eqn:Hparse.
    + rewrite (get_email_folder_path_parsed _ _ _ t Hparse).
      destruct (supported platform t); [|by eexists].
      by destruct (Calendar.ord2ymd _) as [[y m] d].
    + unfold get_email_folder_path. by rewrite Hparse.
  - intros Hdate Hzone.
    set (t := {| EmailUtils.yy := 2023; EmailUtils.mm := 1; EmailUtils.dd := 2;
                 EmailUtils.thh := 10; EmailUtils.tmm := 0; EmailUtils.tss := 0;
                 EmailUtils.tzoffset := 0 |}).
    rewrite (get_email_folder_path_parsed _ _ _ t)
      by (rewrite Hdate; vm_compute; reflexivity).
    unfold supported, local_ordinal.
    replace (posix_time t) with 1672653600 by (vm_compute; reflexivity).
    pose proof (january_2023 _ (Hzone 1672653600)) as Hday.
    unfold Calendar.local_day.
    set (ord := _ / 86400 + Calendar.EPOCH_ORD) in *.
    clearbody ord.
    repeat (apply elem_of_cons in Hday as [-> | Hday]);
      [vm_compute; reflexivity..|].
    by apply elem_of_nil in Hday.
Qed.

(** C6, the claim as it was stated fails: a Date header of the year 10000
    parses, and the function raises instead of returning a folder. *)
Lemma get_email_folder_path_year_10000 :
  EmailUtils.parsedate_tz (hdr_date (Sample.dated "1 Jan 10000 00:00:00 +0000")) =
    Some {| EmailUtils.yy := 10000; EmailUtils.mm := 1; EmailUtils.dd := 1;
            EmailUtils.thh := 0; EmailUtils.tmm := 0; EmailUtils.tss := 0;
            EmailUtils.tzoffset := 0 |}
  ∧ get_email_folder_path Sample.utc
      (Sample.dated "1 Jan 10000 00:00:00 +0000") "out" =
    Raise (ValueError "year 10000 is out of range").
Proof. split; vm_compute; reflexivity. Qed.

(** ** Strings *)

Lemma append_cons c s t : String c s +:+ t = String c (s +:+ t).
Proof. reflexivity. Qed.

Lemma append_nil_l t : "" +:+ t = t.
Proof. reflexivity. Qed.

Lemma append_length s t :
  String.length (s +:+ t) = (String.length s + String.length t)%nat.
Proof.
  induction s as [|c s IH]; [done|].
  rewrite append_cons. simpl. by rewrite IH.
Qed.

Lemma append_inj_r s1 s2 t : s1 +:+ t = s2 +:+ t → s1 = s2.
Proof.
  revert s2. induction s1 as [|c s1 IH]; intros [|d s2] Heq; [done| | |].
  - apply (f_equal String.length) in Heq.
    rewrite append_cons, append_nil_l in Heq. simpl in Heq.
    rewrite append_length in Heq. lia.
  - apply (f_equal String.length) in Heq.
    rewrite append_cons, append_nil_l in Heq. simpl in Heq.
    rewrite append_length in Heq. lia.
  - rewrite !append_cons in Heq. injection Heq as -> Heq.
    by rewrite (IH s2).
Qed.

Lemma take_drop n s : Py.take n s +:+ Py.drop n s = s.
Proof.
  revert s. induction n as [|n IH]; intros [|c s]; try done.
  cbn [Py.take Py.drop]. by rewrite append_cons, IH.
Qed.

Lemma startswith_slash_append b s :
  Py.startswith "/" s = false →
  Py.startswith "/" (b +:+ s) = Py.startswith "/" b.
Proof. intros Hs. by destruct b. Qed.

(** ** Paths *)

Lemma join_inj a x y :
  Py.startswith "/" x = Py.startswith "/" y →
  OsPath.join a x = OsPath.join a y → x = y.
Proof.
  unfold OsPath.join. intros ->.
  destruct (Py.startswith "/" y); [done|].
  destruct (_ || _); intros Heq.
  - by apply String.app_inj in Heq.
  - apply String.app_inj in Heq. by apply (String.app_inj "/") in Heq.
Qed.

Lemma rfind_Some_nonempty c s i : Py.rfind c s = Some i → s ≠ "".
Proof. by destruct s. Qed.

(** The stem and the extension make up the name, and the stem is empty only
    for the empty name. *)
Lemma splitext_spec p :
  (OsPath.splitext p).1 +:+ (OsPath.splitext p).2 = p
  ∧ ((OsPath.splitext p).1 = "" → p = "").
Proof.
  unfold OsPath.splitext.
  destruct (Py.rfind "." p) as [dotIndex|] eqn:Hdot; simpl.
  - destruct (_ && _) eqn:Hcond; simpl.
    + split; [apply take_drop|].
      apply andb_prop in Hcond as [_ Hdots].
      destruct dotIndex as [|dotIndex]; [by destruct p|].
      apply rfind_Some_nonempty in Hdot. by destruct p.
    + split; [|done]. clear. induction p as [|c p IH]; [done|].
      by rewrite append_cons, IH.
  - split; [|done]. clear. induction p as [|c p IH]; [done|].
    by rewrite append_cons, IH.
Qed.

(** ** The collision policy *)

Lemma pretty_nat_not_slash (k : nat) s : Py.startswith "/" ("_" +:+ s) = false.
Proof. done. Qed.

Lemma eml_candidate_head base i j :
  Py.startswith "/" (eml_candidate base i) =
  Py.startswith "/" (eml_candidate base j).
Proof.
  assert (∀ k, Py.startswith "/" (eml_candidate base k) = Py.startswith "/" base)
    as Hhead.
  { intros [|k]; unfold eml_candidate; by apply startswith_slash_append. }
  by rewrite !Hhead.
Qed.

Lemma eml_candidate_inj base i j :
  eml_candidate base i = eml_candidate base j → i = j.
Proof.
  destruct i as [|i], j as [|j]; unfold eml_candidate; intros Heq;
    apply String.app_inj in Heq; [done|done|done|].
  apply (String.app_inj "_") in Heq. apply append_inj_r in Heq.
  by apply pretty_nat_inj in Heq.
Qed.

Lemma attachment_candidate_head filename i j :
  Py.startswith "/" (attachment_candidate filename i) =
  Py.startswith "/" (attachment_candidate filename j).
Proof.
  destruct (splitext_spec filename) as [Hsplit Hstem].
  assert (∀ k, Py.startswith "/" (attachment_candidate filename k) =
               Py.startswith "/" (OsPath.splitext filename).1) as Hhead.
  { intros [|k]; unfold attachment_candidate.
    - rewrite <-Hsplit at 1.
      destruct ((OsPath.splitext filename).1) as [|c stem] eqn:Hname; [|done].
      rewrite Hsplit. by rewrite Hstem.
    - by apply startswith_slash_append. }
  by rewrite !Hhead.
Qed.

Lemma attachment_candidate_inj filename i j :
  attachment_candidate filename i = attachment_candidate filename j → i = j.
Proof.
  destruct (splitext_spec filename) as [Hsplit _].
  assert (∀ k, attachment_candidate filename 0 ≠ attachment_candidate filename (S k))
    as Hzero.
  { intros k. unfold attachment_candidate. rewrite <-Hsplit at 1.
    intros Heq%String.app_inj%(f_equal String.length).
    rewrite !append_length in Heq. simpl in Heq. lia. }
  destruct i as [|i], j as [|j]; intros Heq; [done| | |].
  - by apply Hzero in Heq.
  - symmetry in Heq. by apply Hzero in Heq.
  - unfold attachment_candidate in Heq.
    apply String.app_inj, (String.app_inj "_"), append_inj_r in Heq.
    by apply pretty_nat_inj in Heq.
Qed.

(** Distinct existing paths are no more than the file system holds. *)
Lemma existing_paths_bound (files : gmap string node) (path : nat → string) c :
  (∀ i j, path i = path j → i = j) →
  (∀ j, (j < c)%nat → path_exists files (path j) = true) →
  (c ≤ size files)%nat.
Proof.
  intros Hinj Hex.
  assert (NoDup (path <$> seq 0 c)) as Hnodup.
  { apply NoDup_fmap_2_strong; [|apply NoDup_seq]. intros; by apply Hinj. }
  rewrite <-(size_dom (D:=gset string)).
  replace c with (List.length (path <$> seq 0 c)) at 1
    by (by rewrite length_fmap, length_seq).
  rewrite <-(size_list_to_set (C:=gset string)) by done.
  apply subseteq_size. intros p [j [-> Hj%elem_of_seq]]%elem_of_list_to_set%list_elem_of_fmap.
  apply elem_of_dom. specialize (Hex j ltac:(lia)).
  unfold path_exists in Hex. by apply bool_decide_eq_true in Hex.
Qed.

(** The loop of [get_unique_filename], started at the candidate of index
    [c] when all candidates before it exist, ends at the first free one. *)
Lemma unique_loop_first_free files folder_path base fuel c :
  (∀ j, (j < c)%nat →
        path_exists files (OsPath.join folder_path (eml_candidate base j)) = true) →
  (size files < fuel + c)%nat →
  ∃ k, (c ≤ k)%nat
    ∧ unique_loop files folder_path base fuel (eml_candidate base c) (S c) =
      Ok (eml_candidate base k)
    ∧ path_exists files (OsPath.join folder_path (eml_candidate base k)) = false
    ∧ ∀ j, (j < k)%nat →
        path_exists files (OsPath.join folder_path (eml_candidate base j)) = true.
Proof.
  revert c. induction fuel as [|fuel IH]; intros c Hbefore Hfuel.
  - pose proof (existing_paths_bound files
      (λ j, OsPath.join folder_path (eml_candidate base j)) c) as Hbound.
    simpl in Hbound. rewrite Nat.add_0_l in Hfuel.
    apply Nat.lt_nge in Hfuel. destruct Hfuel. apply Hbound; [|done].
    intros i j Heq. apply (eml_candidate_inj base).
    by apply join_inj in Heq; [|apply eml_candidate_head].
  - cbn [unique_loop].
    destruct (path_exists files _) eqn:Hex.
    + destruct (IH (S c)) as (k & Hk & Hloop & Hfree & Hall).
      * intros j Hj. destruct (decide (j = c)) as [->|]; [done|].
        apply Hbefore. lia.
      * lia.
      * exists k. split_and!; [lia|done..].
    + exists c. by split_and!.
Qed.

Lemma attachment_loop_first_free files attachments_path filename fuel c :
  (∀ j, (j < c)%nat →
        path_exists files
          (OsPath.join attachments_path (attachment_candidate filename j)) = true) →
  (size files < fuel + c)%nat →
  ∃ k, (c ≤ k)%nat
    ∧ attachment_loop files attachments_path filename fuel
        (OsPath.join attachments_path (attachment_candidate filename c)) (S c) =
      Ok (OsPath.join attachments_path (attachment_candidate filename k))
    ∧ path_exists files
        (OsPath.join attachments_path (attachment_candidate filename k)) = false.
Proof.
  revert c. induction fuel as [|fuel IH]; intros c Hbefore Hfuel.
  - pose proof (existing_paths_bound files
      (λ j, OsPath.join attachments_path (attachment_candidate filename j)) c)
      as Hbound.
    simpl in Hbound. rewrite Nat.add_0_l in Hfuel.
    apply Nat.lt_nge in Hfuel. destruct Hfuel. apply Hbound; [|done].
    intros i j Heq. apply (attachment_candidate_inj filename).
    by apply join_inj in Heq; [|apply attachment_candidate_head].
  - cbn [attachment_loop].
    destruct (path_exists files _) eqn:Hex.
    + destruct (OsPath.splitext filename) as [name ext] eqn:Hsplit.
      destruct (IH (S c)) as (k & Hk & Hloop & Hfree).
      * intros j Hj. destruct (decide (j = c)) as [->|]; [done|].
        apply Hbefore. lia.
      * lia.
      * exists k. split_and!; [lia| |done].
        unfold attachment_candidate in Hloop at 1. by rewrite Hsplit in Hloop.
    + exists c. by split_and!.
Qed.

Lemma get_email_date_ends platform email_message :
  get_email_date platform email_message ≠ OutOfFuel.
Proof.
  unfold get_email_date. destruct (EmailUtils.parsedate_tz _) as [t|]; [|done].
  unfold EmailUtils.mktime_tz, Calendar.timegm.
  destruct (_ && _); [|done]. unfold outcome_bind at 1. rewrite outcome_bind_Ok.
  unfold Calendar.fromtimestamp. destruct (_ && _); [|done].
  by destruct (Calendar.ord2ymd _) as [[??]?].
Qed.

Lemma get_unique_filename_first_free platform files email_message folder_path :
  match get_unique_filename platform files email_message folder_path with
  | Ok filename =>
      path_exists files (OsPath.join folder_path filename) = false
      ∧ ∃ date k,
          get_email_date platform email_message = Ok date
          ∧ filename = eml_candidate (base_filename date email_message) k
          ∧ ∀ j, (j < k)%nat →
              path_exists files
                (OsPath.join folder_path
                   (eml_candidate (base_filename date email_message) j)) = true
  | Raise e => get_email_date platform email_message = Raise e
  | OutOfFuel => False
  end.
Proof.
  unfold get_unique_filename.
  pose proof (get_email_date_ends platform email_message) as Hends.
  destruct (get_email_date platform email_message) as [date| |]; [|done..].
  rewrite outcome_bind_Ok.
  destruct (unique_loop_first_free files folder_path
              (base_filename date email_message) (S (size files)) 0)
    as (k & _ & Hloop & Hfree & Hall); [lia..|].
  unfold eml_candidate in Hloop at 1. rewrite Hloop.
  split; [done|]. by exists date, k.
Qed.

(** ** Worlds that continue one another *)

Lemma created_app evs1 evs2 :
  created (evs1 ++ evs2) = (created evs1 ++ created evs2)%list.
Proof. unfold created. apply omap_app. Qed.

Lemma continues_refl w : continues w w.
Proof.
  exists []. split_and!; [by rewrite app_nil_r|done|constructor|].
  intros path Hin. by apply elem_of_nil in Hin.
Qed.

Lemma continues_trans w1 w2 w3 :
  continues w1 w2 → continues w2 w3 → continues w1 w3.
Proof.
  intros (evs1 & Ht1 & Hfs1 & Hnd1 & Hnew1) (evs2 & Ht2 & Hfs2 & Hnd2 & Hnew2).
  exists (evs1 ++ evs2)%list. split_and!.
  - by rewrite Ht2, Ht1, app_assoc.
  - by etrans.
  - rewrite created_app. apply NoDup_app. split_and!; [done| |done].
    intros path [_ Hsome]%Hnew1 [Hnone _]%Hnew2.
    rewrite Hnone in Hsome. by destruct Hsome.
  - intros path. rewrite created_app. intros [Hin|Hin]%elem_of_app.
    + destruct (Hnew1 _ Hin) as [Hnone [x Hx]]. split; [done|].
      exists x. by eapply lookup_weaken.
    + destruct (Hnew2 _ Hin) as [Hnone Hsome]. split; [|done].
      destruct (fs w1 !! path) as [x|] eqn:Hx; [|done].
      by rewrite (lookup_weaken _ _ _ _ Hx Hfs1) in Hnone.
Qed.

(** A step that creates no file and keeps the files it found *)
Lemma continues_quiet w w' evs :
  trace w' = (trace w ++ evs)%list → created evs = [] → fs w ⊆ fs w' →
  continues w w'.
Proof.
  intros Ht Hc Hfs. exists evs. rewrite Hc.
  split_and!; [done|done|constructor|].
  intros path Hin. by apply elem_of_nil in Hin.
Qed.

Lemma continues_emit w e :
  created [e] = [] → continues w (emit e w).
Proof. intros Hc. by apply (continues_quiet _ _ [e]). Qed.

Lemma continues_fs w w' path x :
  continues w w' → fs w !! path = Some x → fs w' !! path = Some x.
Proof. intros (_ & _ & Hfs & _) Hx. by eapply lookup_weaken. Qed.

(** ** Orderly computations *)

Lemma bind_at {A B} (m : M A) (k : A → M B) w :
  (m ≫= k) w =
  match m w with
  | (w', Ok a) => k a w'
  | (w', Raise e) => (w', Raise e)
  | (w', OutOfFuel) => (w', OutOfFuel)
  end.
Proof. reflexivity. Qed.

Lemma orderly_at_bind {A B} (m : M A) (k : A → M B) w :
  orderly_at m w →
  (∀ a w', m w = (w', Ok a) → orderly_at (k a) w') →
  orderly_at (m ≫= k) w.
Proof.
  unfold orderly_at. rewrite bind_at. intros [Hm Hfuel] Hk.
  destruct (m w) as [w' [a|e|]] eqn:Hmw; simpl in *; [|done..].
  destruct (Hk a w' eq_refl) as [Hk1 Hk2]. split; [|done].
  by eapply continues_trans.
Qed.

Lemma orderly_ret {A} (a : A) : orderly (mret a).
Proof. intros w. split; [apply continues_refl|done]. Qed.

Lemma orderly_bind {A B} (m : M A) (k : A → M B) :
  orderly m → (∀ a, orderly (k a)) → orderly (m ≫= k).
Proof.
  intros Hm Hk w. apply orderly_at_bind; [apply Hm|]. intros a w' _. apply Hk.
Qed.

Lemma orderly_lift {A} (r : outcome A) : r ≠ OutOfFuel → orderly (lift r).
Proof. intros Hr w. split; [apply continues_refl|done]. Qed.

Lemma orderly_try_except {A} (m : M A) (h : exn → M A) :
  orderly m → (∀ e, orderly (h e)) → orderly (try_except m h).
Proof.
  intros Hm Hh w. unfold orderly_at, try_except. destruct (Hm w) as [Hc Hfuel].
  destruct (m w) as [w' [a|e|]] eqn:Hmw; simpl in *; [done| |done].
  destruct (Hh e w') as [Hc' Hfuel']. split; [|done].
  by eapply continues_trans.
Qed.

Lemma orderly_for_each {A} (body : A → M unit) l :
  (∀ x, orderly (body x)) → orderly (for_each body l).
Proof.
  intros Hbody. induction l as [|x l IH]; [apply orderly_ret|].
  simpl. apply orderly_bind; [apply Hbody|]. by intros _.
Qed.

Lemma orderly_logging lvl msg : orderly (logging lvl msg).
Proof. intros w. split; [by apply continues_emit|done]. Qed.

Lemma orderly_sleep ms : orderly (sleep ms).
Proof. intros w. split; [by apply continues_emit|done]. Qed.

Lemma continues_set_session st w : continues w (set_session st w).
Proof. by apply (continues_quiet _ _ []); [rewrite app_nil_r| |]. Qed.

Ltac imap_orderly :=
  intros w; cbv beta delta [orderly_at imap_connect imap_login imap_list imap_select
    imap_search imap_fetch imap_close imap_logout];
  repeat (case_match; simpl);
  (split; [|done]);
  repeat first
    [ apply continues_refl
    | apply continues_set_session
    | by apply continues_emit
    | eapply continues_trans; [by apply continues_emit|]
    | eapply continues_trans; [|apply continues_set_session] ].

Lemma orderly_imap_connect srv : orderly (imap_connect srv).
Proof. imap_orderly. Qed.
Lemma orderly_imap_login srv user password : orderly (imap_login srv user password).
Proof. imap_orderly. Qed.
Lemma orderly_imap_list srv : orderly (imap_list srv).
Proof. imap_orderly. Qed.
Lemma orderly_imap_select srv mailbox : orderly (imap_select srv mailbox).
Proof. imap_orderly. Qed.
Lemma orderly_imap_search srv : orderly (imap_search srv).
Proof. imap_orderly. Qed.
Lemma orderly_imap_fetch srv n : orderly (imap_fetch srv n).
Proof. imap_orderly. Qed.
Lemma orderly_imap_close srv : orderly (imap_close srv).
Proof. imap_orderly. Qed.
Lemma orderly_imap_logout srv : orderly (imap_logout srv).
Proof. imap_orderly. Qed.

(** ** File system calls keep what is there *)

Lemma ensure_dir_Raise e l : foldl ensure_dir (Raise e) l = Raise e.
Proof. by induction l. Qed.

Lemma ensure_dirs_grow files l :
  match foldl ensure_dir (Ok files) l with
  | Ok files' => files ⊆ files'
  | Raise _ => True
  | OutOfFuel => False
  end.
Proof.
  revert files. induction l as [|path l IH]; intros files; [simpl; reflexivity|].
  cbn [foldl]. unfold ensure_dir at 2. rewrite outcome_bind_Ok.
  destruct (files !! path) as [[|content]|] eqn:Hpath.
  - apply IH.
  - by rewrite ensure_dir_Raise.
  - specialize (IH (<[path:=Dir]> files)).
    destruct (foldl _ _ _); [|done..].
    etrans; [|done]. by apply insert_subseteq.
Qed.

Lemma ensure_dirs_last files l path :
  match foldl ensure_dir (Ok files) (l ++ [path]) with
  | Ok files' => files' !! path = Some Dir
  | _ => True
  end.
Proof.
  rewrite foldl_app. cbn [foldl].
  destruct (foldl ensure_dir (Ok files) l) as [files1| |]; [|done..].
  unfold ensure_dir. rewrite outcome_bind_Ok.
  destruct (files1 !! path) as [[|content]|] eqn:Hpath; [done|done|].
  apply lookup_insert_eq.
Qed.

Lemma orderly_makedirs platform path : orderly (makedirs platform path).
Proof.
  intros w. unfold orderly_at, makedirs.
  destruct (io_fault platform path); [split; [apply continues_refl|done]|].
  pose proof (ensure_dirs_grow (fs w) (OsPath.ancestors path ++ [path])) as Hgrow.
  destruct (foldl _ _ _) as [files| |]; [|split; [apply continues_refl|done]|done].
  split; [|done]. by apply (continues_quiet _ _ [Makedirs path]).
Qed.

(** Writing at a path where nothing is keeps the rest, and the file is
    there afterwards. *)
Lemma open_write_fresh platform path data w :
  fs w !! path = None → orderly_at (open_write platform path data) w.
Proof.
  intros Hfresh. unfold orderly_at, open_write.
  destruct (io_fault platform path); [split; [apply continues_refl|done]|].
  rewrite Hfresh. rewrite bool_decide_eq_false_2 by done.
  destruct (_ && _); [split; [apply continues_refl|done]|].
  destruct data as [b|]; (split; [|done]).
  - exists [Create path; Write path b]. split_and!; [simpl; by rewrite <-app_assoc| | |].
    + simpl. rewrite insert_insert_eq. by apply insert_subseteq.
    + apply NoDup_singleton.
    + intros p ->%list_elem_of_singleton. split; [done|].
      simpl. rewrite lookup_insert_eq. by eexists.
  - exists [Create path]. split_and!; [done| | |].
    + simpl. by apply insert_subseteq.
    + apply NoDup_singleton.
    + intros p ->%list_elem_of_singleton. split; [done|].
      simpl. rewrite lookup_insert_eq. by eexists.
Qed.

Lemma open_write_Ok platform path b w w' :
  open_write platform path (Some b) w = (w', Ok tt) →
  fs w' !! path = Some (File b).
Proof.
  unfold open_write. repeat case_match; try done.
  intros [= <-]. simpl. apply lookup_insert_eq.
Qed.

Lemma path_exists_false files path :
  path_exists files path = false → files !! path = None.
Proof.
  unfold path_exists. intros Hex%bool_decide_eq_false.
  destruct (files !! path); [|done]. destruct Hex. by eexists.
Qed.

Lemma returned_ends {A} (r : exn + A) : returned r ≠ OutOfFuel.
Proof. by destruct r. Qed.

Lemma first_literal_ends msg_data : first_literal msg_data ≠ OutOfFuel.
Proof. by destruct msg_data as [|[]]. Qed.

Lemma get_email_folder_path_ends platform email_message base_path :
  get_email_folder_path platform email_message base_path ≠ OutOfFuel.
Proof.
  unfold get_email_folder_path. destruct (EmailUtils.parsedate_tz _) as [t|]; [|done].
  unfold EmailUtils.mktime_tz, Calendar.timegm.
  destruct (_ && _); [|done]. unfold outcome_bind at 1. rewrite outcome_bind_Ok.
  unfold Calendar.fromtimestamp. destruct (_ && _); [|done].
  by destruct (Calendar.ord2ymd _) as [[??]?].
Qed.

(** Choosing the name and writing the file, as one step *)
Lemma orderly_write_email platform email_message date_folder raw_email
    (k : string → M (EmailMessage * string * string)) :
  (∀ filepath, orderly (k filepath)) →
  orderly
    (filename ← (λ w, (w, get_unique_filename platform (fs w) email_message date_folder));
     open_write platform (OsPath.join date_folder filename) (Some raw_email);;
     k (OsPath.join date_folder filename)).
Proof.
  intros Hk w. unfold orderly_at. rewrite bind_at.
  pose proof (get_unique_filename_first_free platform (fs w) email_message date_folder)
    as Hfree.
  destruct (get_unique_filename _ _ _ _) as [filename|e|];
    [|split; [apply continues_refl|done]|done].
  destruct Hfree as [Hfree%path_exists_false _].
  apply orderly_at_bind; [by apply open_write_fresh|].
  intros _ w' _. apply Hk.
Qed.

Lemma orderly_save_email platform folder_path msg_data :
  orderly (save_email platform folder_path msg_data).
Proof.
  unfold save_email.
  apply orderly_bind; [apply orderly_lift, first_literal_ends|]. intros raw_email.
  apply orderly_bind; [apply orderly_lift, returned_ends|]. intros email_message.
  apply orderly_bind; [apply orderly_lift, get_email_folder_path_ends|].
  intros date_folder.
  apply orderly_bind; [apply orderly_makedirs|]. intros _.
  apply (orderly_write_email platform email_message date_folder raw_email
           (λ filepath, mret (email_message, date_folder, filepath))).
  intros filepath. apply orderly_ret.
Qed.
(** Choosing the path of an attachment and writing it, as one step *)
Lemma orderly_write_attachment platform attachments_path filename data
    (k : string → M unit) :
  (∀ filepath, orderly (k filepath)) →
  orderly
    (filepath ← (λ w, (w, attachment_loop (fs w) attachments_path filename
                            (S (size (fs w)))
                            (OsPath.join attachments_path filename) 1));
     open_write platform filepath data;;
     k filepath).
Proof.
  intros Hk w. unfold orderly_at. rewrite bind_at.
  destruct (attachment_loop_first_free (fs w) attachments_path filename
              (S (size (fs w))) 0) as (j & _ & Hloop & Hfree); [lia..|].
  unfold attachment_candidate in Hloop at 1. rewrite Hloop.
  apply path_exists_false in Hfree.
  apply orderly_at_bind; [by apply open_write_fresh|].
  intros _ w' _. apply Hk.
Qed.

Lemma orderly_save_parts platform email_message base_path parts attachments_path :
  orderly (save_parts platform email_message base_path parts attachments_path).
Proof.
  revert attachments_path.
  induction parts as [|part parts IH]; intros attachments_path; [apply orderly_ret|].
  cbn [save_parts].
  destruct (String.eqb _ _); [apply IH|].
  destruct (bool_decide _); [apply IH|].
  destruct (get_filename part) as [[|c filename]|]; [apply IH| |apply IH].
  apply orderly_bind.
  { destruct attachments_path; [apply orderly_ret|].
    apply orderly_bind; [apply orderly_lift, get_email_date_ends|]. intros date.
    apply orderly_bind; [apply orderly_makedirs|]. intros _. apply orderly_ret. }
  intros p.
  apply (orderly_write_attachment platform p
           (sanitize_filename (String c filename)) (get_payload_decoded part)
           (λ filepath, logging INFO ("Saved attachment: " +:+ filepath);;
                        save_parts platform email_message base_path parts (Some p))).
  intros filepath. apply orderly_bind; [apply orderly_logging|]. intros _. apply IH.
Qed.

Lemma orderly_save_attachments platform email_message base_path :
  orderly (save_attachments platform email_message base_path).
Proof. apply orderly_save_parts. Qed.

Lemma orderly_message_body platform srv folder_path msg_index message_number :
  orderly (message_body platform srv folder_path msg_index message_number).
Proof.
  unfold message_body.
  apply orderly_bind; [apply orderly_imap_fetch|]. intros [status msg_data].
  destruct (negb _); [apply orderly_logging|].
  apply orderly_bind; [apply orderly_save_email|].
  intros [[email_message date_folder] filepath].
  apply orderly_bind; [apply orderly_save_attachments|]. intros _.
  destruct (_ && _); [apply orderly_sleep|apply orderly_ret].
Qed.

Lemma orderly_process_message platform srv folder_path item :
  orderly (process_message platform srv folder_path item).
Proof.
  destruct item as [msg_index message_number]. unfold process_message.
  apply orderly_try_except; [apply orderly_message_body|].
  intros e. apply orderly_logging.
Qed.

Lemma orderly_process_batch platform srv folder_path batch_size message_numbers i :
  orderly (process_batch platform srv folder_path batch_size message_numbers i).
Proof.
  unfold process_batch.
  apply orderly_bind; [apply orderly_logging|]. intros _.
  apply orderly_bind.
  { apply orderly_for_each. intros item. apply orderly_process_message. }
  intros _. destruct (_ <? _); [apply orderly_sleep|apply orderly_ret].
Qed.

Lemma message_numbers_of_ends data : message_numbers_of data ≠ OutOfFuel.
Proof. by destruct data as [|[]]. Qed.

Lemma range_from_zero_ends stop step : range_from_zero stop step ≠ OutOfFuel.
Proof. unfold range_from_zero. by repeat case_match. Qed.

Lemma orderly_mailbox_body platform srv folder_name folder_path batch_size :
  orderly (mailbox_body platform srv folder_name folder_path batch_size).
Proof.
  unfold mailbox_body.
  apply orderly_bind; [apply orderly_logging|]. intros _.
  apply orderly_bind; [apply orderly_imap_select|]. intros [status ?].
  destruct (negb _).
  { apply orderly_bind; [apply orderly_logging|]. intros _. apply orderly_ret. }
  apply orderly_bind; [apply orderly_imap_search|]. intros [status' data].
  destruct (negb _).
  { apply orderly_bind; [apply orderly_logging|]. intros _. apply orderly_ret. }
  apply orderly_bind; [apply orderly_lift, message_numbers_of_ends|].
  intros message_numbers.
  apply orderly_bind; [apply orderly_logging|]. intros _.
  apply orderly_bind; [apply orderly_lift, range_from_zero_ends|]. intros batches.
  apply orderly_bind.
  { apply orderly_for_each. intros i. apply orderly_process_batch. }
  intros _. apply orderly_ret.
Qed.

Lemma folder_name_of_ends folder_info : folder_name_of folder_info ≠ OutOfFuel.
Proof. by destruct folder_info. Qed.

Lemma orderly_process_folder platform srv output_dir batch_size include_folders
    folder_info :
  orderly (process_folder platform srv output_dir batch_size include_folders
             folder_info).
Proof.
  unfold process_folder.
  apply orderly_bind; [apply orderly_lift, folder_name_of_ends|]. intros folder_name.
  destruct (skipped _ _); [apply orderly_ret|].
  apply orderly_bind; [apply orderly_makedirs|]. intros _.
  apply orderly_bind.
  { apply orderly_try_except; [apply orderly_mailbox_body|].
    intros e. apply orderly_bind; [apply orderly_logging|]. intros _.
    apply orderly_ret. }
  intros [|]; [apply orderly_ret|apply orderly_imap_close].
Qed.

Lemma orderly_archive_gmail platform srv username password output_dir batch_size
    include_folders :
  orderly (archive_gmail platform srv username password output_dir batch_size
             include_folders).
Proof.
  unfold archive_gmail.
  apply orderly_try_except; [|intros e; apply orderly_logging].
  apply orderly_bind; [apply orderly_logging|]. intros _.
  apply orderly_bind; [apply orderly_imap_connect|]. intros _.
  apply orderly_bind; [apply orderly_imap_login|]. intros _.
  apply orderly_bind; [apply orderly_makedirs|]. intros _.
  apply orderly_bind; [apply orderly_imap_list|]. intros [status folder_list].
  destruct (negb _); [apply orderly_logging|].
  apply orderly_bind.
  { apply orderly_for_each. intros folder_info. apply orderly_process_folder. }
  intros _. apply orderly_bind; [apply orderly_imap_logout|]. intros _.
  apply orderly_logging.
Qed.

(** C1. [get_unique_filename] never returns a name that exists in the
    destination folder: it returns the first free name among [base.eml],
    [base_1.eml], [base_2.eml], ... (every earlier one exists), and its loop
    always ends.  Over a whole run, every file is created at a path where
    nothing was, and no path is created twice: two messages never get the same
    file name in a folder. *)
Theorem get_unique_filename_never_collides (platform : Platform) (srv : Server) :
  (∀ files email_message folder_path,
     match get_unique_filename platform files email_message folder_path with
     | Ok filename =>
         path_exists files (OsPath.join folder_path filename) = false
         ∧ ∃ date k,
             get_email_date platform email_message = Ok date
             ∧ filename = eml_candidate (base_filename date email_message) k
             ∧ ∀ j, (j < k)%nat →
                 path_exists files
                   (OsPath.join folder_path
                      (eml_candidate (base_filename date email_message) j)) = true
     | Raise e => get_email_date platform email_message = Raise e
     | OutOfFuel => False
     end)
  ∧ (∀ username password output_dir batch_size include_folders w,
       continues w
         (archive_gmail platform srv username password output_dir batch_size
            include_folders w).1).
Proof.
  split.
  - intros. apply get_unique_filename_first_free.
  - intros. apply orderly_archive_gmail.
Qed.

(** ** The saved message *)

Lemma lift_at {A} (r : outcome A) w : lift r w = (w, r).
Proof. reflexivity. Qed.

Lemma save_email_Ok platform folder_path msg_data w w1 email_message date_folder
    filepath :
  save_email platform folder_path msg_data w =
    (w1, Ok (email_message, date_folder, filepath)) →
  ∃ envelope raw_email rest,
    msg_data = FetchPair envelope raw_email :: rest
    ∧ message_from_bytes platform raw_email = inr email_message
    ∧ fs w !! filepath = None
    ∧ fs w1 !! filepath = Some (File raw_email).
Proof.
  unfold save_email. rewrite bind_at, lift_at.
  destruct msg_data as [|[envelope raw_email| |] rest]; try done.
  cbn [first_literal]. rewrite bind_at, lift_at.
  destruct (message_from_bytes platform raw_email) as [e|msg] eqn:Hparse; [done|].
  cbn [returned]. rewrite bind_at, lift_at.
  destruct (get_email_folder_path platform msg folder_path) as [folder|e|]; [|done..].
  rewrite bind_at.
  pose proof (orderly_makedirs platform folder w) as [Hdirs _].
  destruct (makedirs platform folder w) as [wa [[]|e|]]; [|done..].
  simpl in Hdirs.
  rewrite bind_at.
  pose proof (get_unique_filename_first_free platform (fs wa) msg folder) as Hfree.
  destruct (get_unique_filename platform (fs wa) msg folder) as [filename|e|];
    [|done..].
  destruct Hfree as [Hfree%path_exists_false _].
  rewrite bind_at.
  destruct (open_write platform _ _ wa) as [wb [[]|e|]] eqn:Hwrite; [|done..].
  intros [= <- <- <- <-].
  exists envelope, raw_email, rest. split_and!; [done..| |].
  - destruct (fs w !! _) as [x|] eqn:Hx; [|done].
    by rewrite (continues_fs _ _ _ _ Hdirs Hx) in Hfree.
  - by eapply open_write_Ok.
Qed.

(** C5. When the step that parses and saves a fetched message succeeds, the
    item fetched was a pair whose literal is the raw message, the [.eml]
    file is a new file, and it holds exactly those bytes: after the write,
    and still after the attachments of the message have been extracted,
    whether that extraction succeeded or not. *)
Theorem eml_file_holds_raw_bytes (platform : Platform) (folder_path : string)
    (msg_data : list fetch_item) (w : World) :
  match save_email platform folder_path msg_data w with
  | (w1, Ok (email_message, date_folder, filepath)) =>
      ∃ envelope raw_email rest,
        msg_data = FetchPair envelope raw_email :: rest
        ∧ fs w !! filepath = None
        ∧ fs w1 !! filepath = Some (File raw_email)
        ∧ fs (save_attachments platform email_message date_folder w1).1 !! filepath =
          Some (File raw_email)
  | _ => True
  end.
Proof.
  destruct (save_email platform folder_path msg_data w)
    as [w1 [[[email_message date_folder] filepath]|e|]] eqn:Hsave; [|done..].
  destruct (save_email_Ok _ _ _ _ _ _ _ _ Hsave)
    as (envelope & raw_email & rest & -> & _ & Hnew & Hfile).
  exists envelope, raw_email, rest. split_and!; [done..|].
  destruct (orderly_save_attachments platform email_message date_folder w1)
    as [Hcont _].
  by eapply continues_fs.
Qed.

(** ** A batch survives the failures of its messages *)

Lemma continues_trace w w' e : continues w w' → e ∈ trace w → e ∈ trace w'.
Proof. intros (evs & -> & _) Hin. apply elem_of_app. by left. Qed.

Lemma process_message_returns platform srv folder_path item w :
  (process_message platform srv folder_path item w).2 = Ok tt.
Proof.
  destruct (orderly_process_message platform srv folder_path item w) as [_ Hends].
  destruct item as [msg_index message_number].
  unfold process_message, try_except in *.
  destruct (message_body _ _ _ _ _ _) as [w' [[]|e|]]; done.
Qed.

Lemma for_each_returns {A} (body : A → M unit) l w :
  (∀ x w, (body x w).2 = Ok tt) →
  for_each body l w = (foldl (λ w x, (body x w).1) w l, Ok tt).
Proof.
  intros Hbody. revert w. induction l as [|x l IH]; intros w; [done|].
  cbn [for_each foldl]. rewrite bind_at. specialize (Hbody x w).
  destruct (body x w) as [w' r]. simpl in *. subst r. apply IH.
Qed.

Lemma after_messages_continues platform srv folder_path items w :
  continues w (after_messages platform srv folder_path items w).
Proof.
  unfold after_messages. revert w.
  induction items as [|item items IH]; intros w; [apply continues_refl|].
  cbn [foldl]. eapply continues_trans; [|apply IH].
  apply orderly_process_message.
Qed.

Lemma after_messages_middle platform srv folder_path items i item w :
  items !! i = Some item →
  after_messages platform srv folder_path items w =
  after_messages platform srv folder_path (drop (S i) items)
    (process_message platform srv folder_path item
       (after_messages platform srv folder_path (take i items) w)).1.
Proof.
  intros Hi. unfold after_messages.
  rewrite <-(take_drop_middle items i item Hi) at 1.
  by rewrite foldl_app.
Qed.

(** What the processing of one message leaves, by the way its [try] block
    went *)
Lemma process_message_raised platform srv folder_path msg_index message_number w w1 e :
  message_body platform srv folder_path msg_index message_number w = (w1, Raise e) →
  Log ERROR ("Error processing message " +:+ Py.repr_bytes message_number +:+
             ": " +:+ str_exn e)
  ∈ trace (process_message platform srv folder_path (msg_index, message_number) w).1.
Proof.
  intros Hbody. unfold process_message, try_except. rewrite Hbody.
  simpl. apply elem_of_app. right. by apply list_elem_of_singleton.
Qed.

Lemma process_message_not_fetched platform srv folder_path msg_index message_number
    w wf status msg_data :
  imap_fetch srv message_number w = (wf, Ok (status, msg_data)) →
  String.eqb status "OK" = false →
  Log WARNING ("Failed to fetch message " +:+ Py.repr_bytes message_number +:+
               ", skipping...")
  ∈ trace (process_message platform srv folder_path (msg_index, message_number) w).1.
Proof.
  intros Hfetch Hstatus.
  unfold process_message, try_except, message_body.
  rewrite bind_at, Hfetch, Hstatus. simpl.
  apply elem_of_app. right. by apply list_elem_of_singleton.
Qed.

Lemma process_message_saved platform srv folder_path msg_index message_number
    w wf status msg_data w1 email_message date_folder filepath :
  imap_fetch srv message_number w = (wf, Ok (status, msg_data)) →
  String.eqb status "OK" = true →
  save_email platform folder_path msg_data wf =
    (w1, Ok (email_message, date_folder, filepath)) →
  continues w1
    (process_message platform srv folder_path (msg_index, message_number) w).1.
Proof.
  intros Hfetch Hstatus Hsave.
  unfold process_message, try_except, message_body.
  rewrite bind_at, Hfetch, Hstatus. cbn [negb]. rewrite bind_at, Hsave.
  set (rest := save_attachments platform email_message date_folder;;
               if (msg_index mod 10 =? 0) && (0 <? msg_index)
               then sleep 100 else mret tt).
  assert (orderly rest) as Hrest.
  { apply orderly_bind; [apply orderly_save_attachments|]. intros _.
    destruct (_ && _); [apply orderly_sleep|apply orderly_ret]. }
  destruct (Hrest w1) as [Hcont Hends]. cbv beta iota.
  destruct (rest w1) as [w2 [[]|e|]]; simpl in *; [done| |done].
  eapply continues_trans; [done|]. by apply continues_emit.
Qed.

(** C2. The loop over the messages of a batch always runs to its end and
    raises nothing: its final world is the one reached by processing every
    message in turn.  Whatever a message's [try] block raises is logged
    as an error with the message identifier, a fetch that is refused is
    logged as a warning with it, and every message whose own fetch and save
    succeed has its file, with its raw bytes, in the file system at the end
    of the batch, whatever happened to the other messages.  Nothing that
    was on disk is lost, and the iteration over a batch never raises
    either. *)
Theorem batch_survives_message_failures (platform : Platform) (srv : Server)
    (folder_path : string) (items : list (Z * string)) (w : World) :
  let w' := after_messages platform srv folder_path items w in
  for_each (process_message platform srv folder_path) items w = (w', Ok tt)
  ∧ continues w w'
  ∧ (∀ i msg_index message_number,
       items !! i = Some (msg_index, message_number) →
       let wi := after_messages platform srv folder_path (take i items) w in
       (∀ w1 e,
          message_body platform srv folder_path msg_index message_number wi =
            (w1, Raise e) →
          Log ERROR ("Error processing message " +:+
                     Py.repr_bytes message_number +:+ ": " +:+ str_exn e)
          ∈ trace w')
       ∧ (∀ wf status msg_data,
            imap_fetch srv message_number wi = (wf, Ok (status, msg_data)) →
            String.eqb status "OK" = false →
            Log WARNING ("Failed to fetch message " +:+
                         Py.repr_bytes message_number +:+ ", skipping...")
            ∈ trace w')
       ∧ (∀ wf status msg_data w1 email_message date_folder filepath,
            imap_fetch srv message_number wi = (wf, Ok (status, msg_data)) →
            String.eqb status "OK" = true →
            save_email platform folder_path msg_data wf =
              (w1, Ok (email_message, date_folder, filepath)) →
            ∃ envelope raw_email rest,
              msg_data = FetchPair envelope raw_email :: rest
              ∧ fs w' !! filepath = Some (File raw_email)))
  ∧ (∀ batch_size message_numbers i w0,
       (process_batch platform srv folder_path batch_size message_numbers i w0).2 =
       Ok tt).
Proof.
  intros w'. split_and!.
  - apply for_each_returns. intros item w0. apply process_message_returns.
  - apply after_messages_continues.
  - intros i msg_index message_number Hi wi.
    assert (continues
              (process_message platform srv folder_path
                 (msg_index, message_number) wi).1 w') as Hlater.
    { unfold w'. rewrite (after_messages_middle _ _ _ _ _ _ _ Hi).
      apply after_messages_continues. }
    split_and!.
    + intros w1 e Hbody. eapply continues_trace; [done|].
      by eapply process_message_raised.
    + intros wf status msg_data Hfetch Hstatus.
      eapply continues_trace; [done|]. by eapply process_message_not_fetched.
    + intros wf status msg_data w1 email_message date_folder filepath
        Hfetch Hstatus Hsave.
      destruct (save_email_Ok _ _ _ _ _ _ _ _ Hsave)
        as (envelope & raw_email & rest & -> & _ & _ & Hfile).
      exists envelope, raw_email, rest. split; [done|].
      eapply continues_fs; [exact Hlater|].
      eapply continues_fs; [|exact Hfile].
      by eapply process_message_saved.
  - intros batch_size message_numbers i w0. unfold process_batch.
    rewrite bind_at. cbn [logging]. rewrite bind_at.
    rewrite for_each_returns by (intros; apply process_message_returns).
    by destruct (_ <? _).
Qed.

(** ** The inclusion list *)

Lemma for_each_ext {A} (f g : A → M unit) l w :
  (∀ x w, f x w = g x w) → for_each f l w = for_each g l w.
Proof.
  intros Hfg. revert w. induction l as [|x l IH]; intros w; [done|].
  cbn [for_each]. rewrite !bind_at, Hfg.
  destruct (g x w) as [w' [[]|e|]]; [apply IH|done..].
Qed.

(** C9. An inclusion list that is given but empty filters nothing: no
    mailbox is skipped (a list with a name in it skips the mailboxes that
    are not in it), and the run is the run that is given no list. *)
Theorem empty_inclusion_list_disables_filter (platform : Platform) (srv : Server)
    (username password output_dir : string) (batch_size : Z) (w : World) :
  (∀ folder_name, skipped (Some []) folder_name = false)
  ∧ (∀ folder_name name names,
       skipped (Some (name :: names)) folder_name =
       negb (Py.mem folder_name (name :: names)))
  ∧ (∀ folder_info w0,
       process_folder platform srv output_dir batch_size (Some []) folder_info w0 =
       process_folder platform srv output_dir batch_size None folder_info w0)
  ∧ archive_gmail platform srv username password output_dir batch_size (Some []) w =
    archive_gmail platform srv username password output_dir batch_size None w.
Proof.
  split_and!; [done|done|done|].
  unfold archive_gmail, try_except.
  rewrite !bind_at. cbn [logging]. rewrite !bind_at.
  destruct (imap_connect srv _) as [w1 [[]|e|]]; [|done..].
  rewrite !bind_at. destruct (imap_login srv _ _ _) as [w2 [[]|e|]]; [|done..].
  rewrite !bind_at. destruct (makedirs platform _ _) as [w3 [[]|e|]]; [|done..].
  rewrite !bind_at. destruct (imap_list srv _) as [w4 [[status folder_list]|e|]];
    [|done..].
  destruct (negb _); [done|].
  rewrite !bind_at.
  by rewrite (for_each_ext
    (process_folder platform srv output_dir batch_size (Some []))
    (process_folder platform srv output_dir batch_size None)).
Qed.

(** ** Mailboxes *)

Lemma makedirs_inv platform path w w1 r :
  makedirs platform path w = (w1, r) →
  (r = Ok tt ∧ trace w1 = (trace w ++ [Makedirs path])%list
   ∧ fs w ⊆ fs w1 ∧ fs w1 !! path = Some Dir ∧ session w1 = session w)
  ∨ (w1 = w ∧ r ≠ Ok tt).
Proof.
  unfold makedirs. destruct (io_fault platform path); [intros [= <- <-]; by right|].
  pose proof (ensure_dirs_grow (fs w) (OsPath.ancestors path ++ [path])) as Hgrow.
  pose proof (ensure_dirs_last (fs w) (OsPath.ancestors path) path) as Hlast.
  destruct (foldl _ _ _) as [files| |]; intros [= <- <-]; [|by right..].
  left. by split_and!.
Qed.

(** C4, at a mailbox whose search is refused: the script goes on to the next
    mailbox without closing the one it had selected.  The commands sent
    show no [CLOSE] between the refused [SEARCH] of the first mailbox and the
    [EXAMINE] of the second. *)
Theorem refused_search_skips_close :
  imap_commands
    (trace (archive_gmail Sample.utc Sample.two_mailboxes "user" "secret" "out"
              100 None Sample.fresh).1) =
  [CONNECT; LOGIN "user"; LIST;
   EXAMINE (dquote +:+ "Spam" +:+ dquote); SEARCH;
   EXAMINE (dquote +:+ "INBOX" +:+ dquote); SEARCH;
   FETCH "1"; FETCH "2"; CLOSE; LOGOUT].
Proof. vm_compute. reflexivity. Qed.

(** C10. For a mailbox that passes the filter, the directory of the mailbox
    is made before anything else of the iteration happens: when it cannot be
    made, the iteration raises at once and no command is sent; when it is
    made, every event of the iteration, the [EXAMINE] among them, comes
    after, and the directory is there at the end of the iteration.  When the
    select or the search is then answered with a status other than [OK],
    the iteration ends normally and the file system is as [makedirs] left
    it: the directory stays, with nothing new in it. *)
Theorem mailbox_directory_made_before_select (platform : Platform) (srv : Server)
    (output_dir : string) (batch_size : Z) (include_folders : option (list string))
    (folder_info : exn + string) (folder_name : string) (w : World) :
  folder_name_of folder_info = Ok folder_name →
  skipped include_folders folder_name = false →
  let folder_path := OsPath.join output_dir (sanitize_filename folder_name) in
  let mailbox := dquote +:+ folder_name +:+ dquote in
  let r := process_folder platform srv output_dir batch_size include_folders
             folder_info w in
  match makedirs platform folder_path w with
  | (w1, Ok _) =>
      trace w1 = (trace w ++ [Makedirs folder_path])%list
      ∧ fs w1 !! folder_path = Some Dir
      ∧ (∃ events, trace r.1 = (trace w1 ++ events)%list)
      ∧ fs r.1 !! folder_path = Some Dir
      ∧ (∀ w2 status data,
           imap_select srv mailbox
             (emit (Log INFO ("Processing folder: " +:+ folder_name)) w1) =
             (w2, Ok (status, data)) →
           (String.eqb status "OK" = false → fs r.1 = fs w1 ∧ r.2 = Ok tt)
           ∧ (∀ w3 status' data',
                imap_search srv w2 = (w3, Ok (status', data')) →
                String.eqb status "OK" = true →
                String.eqb status' "OK" = false →
                fs r.1 = fs w1 ∧ r.2 = Ok tt))
  | (w1, failure) => r = (w, failure) ∧ w1 = w
  end.
Proof.
  intros Hname Hpass folder_path mailbox r.
  assert (r = (makedirs platform folder_path;;
               c ← try_except
                     (mailbox_body platform srv folder_name folder_path batch_size)
                     (λ e, logging ERROR ("Error processing folder " +:+
                                          folder_name +:+ ": " +:+ str_exn e);;
                           mret FallThrough);
               match c with
               | Continue => mret tt
               | FallThrough => imap_close srv
               end) w) as Hr.
  { unfold r, process_folder. by rewrite bind_at, lift_at, Hname, Hpass. }
  rewrite bind_at in Hr.
  destruct (makedirs platform folder_path w) as [w1 r1] eqn:Hmk.
  destruct (makedirs_inv _ _ _ _ _ Hmk)
    as [(-> & Htrace & Hgrow & Hdir & _)|[-> Hfail]].
  2:{ destruct r1 as [[]|e|]; [done|by rewrite Hr..]. }
  set (rest := _ ≫= _) in Hr.
  assert (orderly rest) as Hrest.
  { apply orderly_bind.
    - apply orderly_try_except; [apply orderly_mailbox_body|].
      intros e. apply orderly_bind; [apply orderly_logging|]. intros _.
      apply orderly_ret.
    - intros [|]; [apply orderly_ret|apply orderly_imap_close]. }
  destruct (Hrest w1) as [Hcont _]. rewrite <-Hr in Hcont.
  split_and!; [done|done| | |].
  - destruct Hcont as (events & Hevents & _). by exists events.
  - by eapply continues_fs.
  - intros w2 status data Hselect.
    assert (∀ w', mailbox_body platform srv folder_name folder_path batch_size w1 =
                    (w', Ok Continue) →
                  fs w' = fs w1 → fs r.1 = fs w1 ∧ r.2 = Ok tt) as Hskip.
    { intros w' Hbody Hfs. rewrite Hr. unfold rest, try_except.
      rewrite bind_at, Hbody. by split. }
    assert (fs w2 = fs w1) as Hfs2.
    { revert Hselect. unfold imap_select. simpl.
      repeat case_match; intros [= <- _ _]; done. }
    split.
    + intros Hstatus. eapply Hskip.
      * unfold mailbox_body. rewrite bind_at. cbn [logging]. fold mailbox.
        rewrite bind_at, Hselect, Hstatus. reflexivity.
      * done.
    + intros w3 status' data' Hsearch Hstatus Hstatus'.
      assert (fs w3 = fs w2) as Hfs3.
      { revert Hsearch. unfold imap_search.
        repeat case_match; intros [= <- _ _]; done. }
      eapply Hskip.
      * unfold mailbox_body. rewrite bind_at. cbn [logging]. fold mailbox.
        rewrite bind_at, Hselect, Hstatus. cbn [negb].
        rewrite bind_at, Hsearch, Hstatus'. reflexivity.
      * simpl. by rewrite Hfs3.
Qed.

Lemma mailbox_directory_made_before_select_witness :
  folder_name_of (Sample.listing_entry "Spam") = Ok "Spam"
  ∧ skipped None "Spam" = false
  ∧ fs (process_folder Sample.utc Sample.two_mailboxes "out" 100 None
          (Sample.listing_entry "Spam") Sample.connected).1 !! "out/Spam" =
    Some Dir.
Proof.
  split_and!; [reflexivity..|].
  pose proof (mailbox_directory_made_before_select Sample.utc Sample.two_mailboxes
                "out" 100 None (Sample.listing_entry "Spam") "Spam"
                Sample.connected eq_refl eq_refl) as H.
  exact (proj1 (proj2 (proj2 (proj2 H)))).
Defined.

(** ** A part that cannot be decoded *)

Lemma bind_ext_at {A B} (m : M A) (k1 k2 : A → M B) w :
  (∀ a w', m w = (w', Ok a) → k1 a w' = k2 a w') →
  (m ≫= k1) w = (m ≫= k2) w.
Proof.
  intros Hk. rewrite !bind_at.
  destruct (m w) as [w' [a|e|]] eqn:Hm; [by apply Hk|done..].
Qed.

Lemma bind_never_Ok {A B} (m : M A) (k : A → M B) w b :
  (∀ a w', (k a w').2 ≠ Ok b) → ((m ≫= k) w).2 ≠ Ok b.
Proof.
  intros Hk. rewrite bind_at.
  destruct (m w) as [w' [a|e|]]; [apply Hk|done..].
Qed.

(** Writing [None]: the call raises, and what it leaves is an empty file at
    that path or nothing at all. *)
Lemma open_write_None platform path w :
  ∃ e, (open_write platform path None w).2 = Raise e
    ∧ ((open_write platform path None w).1 = w
       ∨ (open_write platform path None w).1 =
         emit (Create path) (set_fs (insert path (File "")) w)).
Proof.
  unfold open_write. repeat case_match; eexists; (split; [done|]); auto.
Qed.

(** The statements of the loop body for a part that qualifies, up to the
    write, and what follows them *)
Lemma save_parts_attachment platform email_message base_path part parts
    attachments_path filename :
  String.eqb (get_content_maintype part) "multipart" = false →
  content_disposition part ≠ None →
  get_filename part = Some filename →
  filename ≠ "" →
  save_parts platform email_message base_path (part :: parts) attachments_path =
  (p ← match attachments_path with
       | Some p => mret p
       | None =>
           date ← lift (get_email_date platform email_message);
           let p := OsPath.join (OsPath.join base_path "attachments")
                      (date +:+ "_" +:+
                       Py.take 30 (sanitize_filename
                         (default "No Subject" (hdr_subject email_message))) +:+
                       "_attachments") in
           makedirs platform p;; mret p
       end;
   filepath ← (λ w, (w, attachment_loop (fs w) p (sanitize_filename filename)
                          (S (size (fs w)))
                          (OsPath.join p (sanitize_filename filename)) 1));
   open_write platform filepath (get_payload_decoded part);;
   logging INFO ("Saved attachment: " +:+ filepath);;
   save_parts platform email_message base_path parts (Some p)).
Proof.
  intros Hmulti Hdisp Hname Hnonempty. cbn [save_parts].
  rewrite Hmulti, bool_decide_eq_false_2, Hname by done.
  by destruct filename.
Qed.

(** C3 (amended). A part that qualifies as an attachment and whose payload
    cannot be decoded is not skipped.  The call raises, so the parts after
    it are not extracted: the result is the same whatever parts follow.
    The only file the call may have created is a new, empty file, the one
    opened for that part. *)
Theorem undecodable_part_aborts_extraction (platform : Platform)
    (email_message : EmailMessage) (base_path : string) (part : Part)
    (parts : list Part) (attachments_path : option string) (filename : string)
    (w : World) :
  String.eqb (get_content_maintype part) "multipart" = false →
  content_disposition part ≠ None →
  get_filename part = Some filename →
  filename ≠ "" →
  get_payload_decoded part = None →
  let r := save_parts platform email_message base_path (part :: parts)
             attachments_path w in
  r = save_parts platform email_message base_path [part] attachments_path w
  ∧ (∃ e, r.2 = Raise e)
  ∧ ∃ events,
      trace r.1 = (trace w ++ events)%list
      ∧ ∀ path, Create path ∈ events →
          fs w !! path = None ∧ fs r.1 !! path = Some (File "").
Proof.
  intros Hmulti Hdisp Hname Hnonempty Hpayload r.
  assert (∀ rest,
    save_parts platform email_message base_path (part :: rest) attachments_path =
    (p ← match attachments_path with
         | Some p => mret p
         | None =>
             date ← lift (get_email_date platform email_message);
             let p := OsPath.join (OsPath.join base_path "attachments")
                        (date +:+ "_" +:+
                         Py.take 30 (sanitize_filename
                           (default "No Subject" (hdr_subject email_message))) +:+
                         "_attachments") in
             makedirs platform p;; mret p
         end;
     filepath ← (λ w, (w, attachment_loop (fs w) p (sanitize_filename filename)
                            (S (size (fs w)))
                            (OsPath.join p (sanitize_filename filename)) 1));
     open_write platform filepath None;;
     logging INFO ("Saved attachment: " +:+ filepath);;
     save_parts platform email_message base_path rest (Some p))) as Hbody.
  { intros rest. rewrite <-Hpayload. by apply save_parts_attachment. }
  assert (∀ path k1 k2 w0,
            (open_write platform path None ≫= k1) w0 =
            (open_write platform path None ≫= k2) w0 :> World * outcome unit)
    as Hwrite.
  { intros path k1 k2 w0. rewrite !bind_at.
    destruct (open_write_None platform path w0) as (e & He & _).
    destruct (open_write platform path None w0) as [w1 r1]. simpl in He.
    by subst r1. }
  split_and!.
  - unfold r. rewrite !Hbody.
    apply bind_ext_at. intros p w1 _. apply bind_ext_at. intros filepath w2 _.
    apply Hwrite.
  - destruct (orderly_save_parts platform email_message base_path (part :: parts)
                attachments_path w) as [_ Hends]. fold r in Hends.
    assert (r.2 ≠ Ok tt) as Hnot.
    { unfold r. rewrite Hbody. apply bind_never_Ok. intros p w1.
      apply bind_never_Ok. intros filepath w2. rewrite bind_at.
      destruct (open_write_None platform filepath w2) as (e & He & _).
      destruct (open_write platform filepath None w2) as [w3 r3]. simpl in He.
      by subst r3. }
    destruct r.2 as [[]|e|]; [done|by exists e|done].
  - unfold r. rewrite Hbody, bind_at.
    assert (∃ p w1 evs,
              (match attachments_path with
               | Some p => mret p
               | None =>
                   date ← lift (get_email_date platform email_message);
                   let p := OsPath.join (OsPath.join base_path "attachments")
                              (date +:+ "_" +:+
                               Py.take 30 (sanitize_filename
                                 (default "No Subject" (hdr_subject email_message))) +:+
                               "_attachments") in
                   makedirs platform p;; mret p
               end w = (w1, Ok p)
               ∨ ∃ e, match attachments_path with
                      | Some p => mret p
                      | None =>
                          date ← lift (get_email_date platform email_message);
                          let p := OsPath.join (OsPath.join base_path "attachments")
                                     (date +:+ "_" +:+
                                      Py.take 30 (sanitize_filename
                                        (default "No Subject"
                                           (hdr_subject email_message))) +:+
                                      "_attachments") in
                          makedirs platform p;; mret p
                      end w = (w1, Raise e))
              ∧ trace w1 = (trace w ++ evs)%list ∧ created evs = []
              ∧ (∀ path, Create path ∉ evs) ∧ fs w ⊆ fs w1)
      as (p & w1 & evs & Hfolder & Htrace & _ & Hnocreate & Hgrow).
    { destruct attachments_path as [p|].
      - exists p, w, []. split_and!; [by left|by rewrite app_nil_r|done| |done].
        intros path Hin. by apply elem_of_nil in Hin.
      - rewrite bind_at, lift_at.
        pose proof (get_email_date_ends platform email_message) as Hdate.
        destruct (get_email_date platform email_message) as [date|e|]; [| |done].
        + cbv zeta. rewrite bind_at.
          set (p := OsPath.join _ _).
          destruct (makedirs platform p w) as [w1 r1] eqn:Hmk.
          destruct (makedirs_inv _ _ _ _ _ Hmk)
            as [(-> & Htrace & Hgrow & _)|[-> Hfail]].
          * exists p, w1, [Makedirs p].
            split_and!; [by left|done|done| |done].
            intros path [=]%list_elem_of_singleton.
          * pose proof (orderly_makedirs platform p w) as [_ Hends].
            rewrite Hmk in Hends. simpl in Hends.
            destruct r1 as [[]|e|]; [done| |done].
            exists p, w, []. split_and!; [right; by exists e|by rewrite app_nil_r
                                         |done| |done].
            intros path Hin. by apply elem_of_nil in Hin.
        + exists "", w, []. split_and!; [right; by exists e|by rewrite app_nil_r
                                        |done| |done].
          intros path Hin. by apply elem_of_nil in Hin. }
    destruct Hfolder as [-> | [e ->]].
    2:{ exists evs. split; [done|]. intros path Hin. by apply Hnocreate in Hin. }
    rewrite bind_at.
    destruct (attachment_loop_first_free (fs w1) p (sanitize_filename filename)
                (S (size (fs w1))) 0) as (j & _ & Hloop & Hfree); [lia..|].
    unfold attachment_candidate in Hloop at 1. rewrite Hloop.
    apply path_exists_false in Hfree.
    set (filepath := OsPath.join p (attachment_candidate _ j)) in *.
    rewrite bind_at.
    destruct (open_write_None platform filepath w1) as (e & He & Hworld).
    destruct (open_write platform filepath None w1) as [w2 r2].
    simpl in He, Hworld. subst r2. simpl.
    destruct Hworld as [-> | ->].
    + exists evs. split; [done|]. intros path Hin. by apply Hnocreate in Hin.
    + exists (evs ++ [Create filepath])%list. split.
      * simpl. by rewrite Htrace, app_assoc.
      * intros path [Hin|Hin%list_elem_of_singleton]%elem_of_app.
        { by apply Hnocreate in Hin. }
        injection Hin as ->. split.
        -- destruct (fs w !! filepath) as [x|] eqn:Hx; [|done].
           by rewrite (lookup_weaken _ _ _ _ Hx Hgrow) in Hfree.
        -- simpl. apply lookup_insert_eq.
Qed.

(** C3, the claim as it was stated fails: on a forwarded message whose
    attached original has no payload to decode, [save_attachments] raises,
    leaves an empty file for that part, and never reaches the PDF that
    comes after it. *)
Lemma undecodable_part_is_not_skipped :
  let folder :=
    "out/INBOX/2023-01/attachments/2023-01-02_10-00-00_Fwd_ report_attachments" in
  let r := save_attachments Sample.utc Sample.forwarded "out/INBOX/2023-01"
             Sample.with_date_folder in
  r.2 = Raise (TypeError "a bytes-like object is required, not 'NoneType'")
  ∧ fs r.1 !! (folder +:+ "/original.eml") = Some (File "")
  ∧ fs r.1 !! (folder +:+ "/report.pdf") = None.
Proof. vm_compute. by split_and!. Qed.

Lemma undecodable_part_aborts_extraction_witness :
  let part := Sample.attachment "message" "original.eml" None in
  let parts := [Sample.attachment "application" "report.pdf" (Some "%PDF-1.4")] in
  String.eqb (get_content_maintype part) "multipart" = false
  ∧ content_disposition part ≠ None
  ∧ get_filename part = Some "original.eml"
  ∧ "original.eml" ≠ ""
  ∧ get_payload_decoded part = None
  ∧ save_parts Sample.utc Sample.forwarded "out/INBOX/2023-01" (part :: parts)
      None Sample.with_date_folder =
    save_parts Sample.utc Sample.forwarded "out/INBOX/2023-01" [part]
      None Sample.with_date_folder.
Proof.
  intros part parts.
  assert (content_disposition part ≠ None) as Hdisp by discriminate.
  assert ("original.eml" ≠ "") as Hname by discriminate.
  split_and!; [reflexivity|exact Hdisp|reflexivity|exact Hname|reflexivity|].
  exact (proj1 (undecodable_part_aborts_extraction Sample.utc Sample.forwarded
                  "out/INBOX/2023-01" part parts None "original.eml"
                  Sample.with_date_folder eq_refl Hdisp eq_refl Hname eq_refl)).
Defined.
